(** * ippdu: outlet directory, resolver and scrapers of a Smart-PDU client

    A shallow embedding of [ippdu.py].  Python values are modelled as
    follows.

    - [int] is [Z].  The interpreter's optional cap on the length of a
      decimal literal passed to [int()] is a resource limit of the run-time
      and is not part of the model.
    - [str] is [string]; a character of [string] is read as the Unicode code
      point of the same number, so the model covers every text over
      U+0000..U+00FF.  The character tables of [PyStr] below are Python's on
      that range.
    - [dict] is stdpp's [gmap]; a list or tuple is a list or a product.
    - a raised exception is the [Raise] case of [result].
    - the external collaborators (the HTTP client, the HTML parser of [bs4],
      [xml.etree.ElementTree.fromstring] and the browser session) are
      variables of the section [Device]; the code of [ippdu.py] starts from
      what they return.  The methods of the parsed documents that the code
      calls ([find_all], [find_parent], [get], [get_text], iteration over an
      element) are modelled on the document trees. *)

From Stdlib Require Import ZArith NArith Ascii String.
From Stdlib Require Import Decimal DecimalString DecimalPos DecimalZ.
From stdpp Require Import base option list strings gmap fin_maps sorting.

Set Warnings "-register-all".

Local Open Scope Z_scope.

(** ** Exceptions *)

(** The payload of the [ValueError]s the program can meet; each constructor
    stands for one message text. *)
Inductive ValueErrorMsg :=
  | OutletNumberNotPresent (num : Z)
      (* f"Outlet number {num} not present." *)
  | MultipleOutletsNamed (arg : string) (matches : list Z)
      (* f'Multiple outlets named ... Specify the number instead. Matches: {matches}' *)
  | NoOutletNamed (arg : string)
      (* f'No outlet named ... found.' *)
  | InvalidLiteralForInt (arg : string).
      (* raised by int(): invalid literal for int() with base 10 *)

Inductive exn :=
  | ValueError (msg : ValueErrorMsg)
  | AttributeError      (* attribute access on None *)
  | IndexError          (* list index out of range *)
  | KeyError (key : Z)
  | ParseError          (* xml.etree.ElementTree.ParseError *)
  | RequestException.   (* any failure of requests.get / raise_for_status *)

Inductive result (A : Type) :=
  | Ok (a : A)
  | Raise (e : exn).
Arguments Ok {A} a.
Arguments Raise {A} e.

#[global] Instance result_ret : MRet result := λ A a, Ok a.
#[global] Instance result_bind : MBind result := λ A B f m,
  match m with Ok a => f a | Raise e => Raise e end.

Definition returns {A} (m : result A) : Prop := ∃ a, m = Ok a.
Definition raises {A} (m : result A) : Prop := ∃ e, m = Raise e.

(** ** Python's [str] methods on U+0000..U+00FF *)

Module PyStr.

Definition ord (c : ascii) : N := N_of_ascii c.
Definition chr (n : N) : ascii := ascii_of_N n.

Definition between (lo hi : N) (c : ascii) : bool :=
  ((lo <=? ord c) && (ord c <=? hi))%N.
Definition is_code (n : N) (c : ascii) : bool := (ord c =? n)%N.

(** Unicode category Nd: what [int()] and the regex class [\d] accept. *)
Definition is_decimal (c : ascii) : bool := between 48 57 c.

(** [str.isdigit] per character: the decimals and the superscripts
    U+00B2, U+00B3, U+00B9 (Numeric_Type=Digit). *)
Definition is_digit (c : ascii) : bool :=
  is_decimal c || is_code 178 c || is_code 179 c || is_code 185 c.

(** [str.isspace] per character. *)
Definition is_space (c : ascii) : bool :=
  between 9 13 c || between 28 32 c || is_code 133 c || is_code 160 c.

Definition is_upper (c : ascii) : bool :=
  between 65 90 c || between 192 214 c || between 216 222 c.
Definition is_lower_with_capital (c : ascii) : bool :=
  between 97 122 c || between 224 246 c || between 248 254 c.

Fixpoint all_chars (p : ascii → bool) (s : string) : bool :=
  match s with
  | EmptyString => true
  | String c r => p c && all_chars p r
  end.

(** [s.isdigit()]: at least one character and all of them digits. *)
Definition isdigit (s : string) : bool :=
  match s with
  | EmptyString => false
  | String _ _ => all_chars is_digit s
  end.

Definition lower_char (c : ascii) : ascii :=
  if is_upper c then chr (ord c + 32) else c.

(** [s.lower()] *)
Fixpoint lower (s : string) : string :=
  match s with
  | EmptyString => EmptyString
  | String c r => String (lower_char c) (lower r)
  end.

(** [s.upper()].  U+00DF becomes the two letters SS.  The capitals of
    U+00B5 and U+00FF lie beyond U+00FF; these two letters are kept as
    they are, so [upper] is Python's on every text without them. *)
Fixpoint upper (s : string) : string :=
  match s with
  | EmptyString => EmptyString
  | String c r =>
      if is_code 223 c then String "S" (String "S" (upper r))
      else if is_lower_with_capital c then String (chr (ord c - 32)) (upper r)
      else String c (upper r)
  end.

(** [s.lstrip(chars)] for a set of characters given as a predicate. *)
Fixpoint lstrip_by (p : ascii → bool) (s : string) : string :=
  match s with
  | EmptyString => EmptyString
  | String c r => if p c then lstrip_by p r else s
  end.

Fixpoint rstrip_by (p : ascii → bool) (s : string) : string :=
  match s with
  | EmptyString => EmptyString
  | String c r =>
      match rstrip_by p r with
      | EmptyString => if p c then EmptyString else String c EmptyString
      | r' => String c r'
      end
  end.

(** [s.strip()] *)
Definition strip (s : string) : string := rstrip_by is_space (lstrip_by is_space s).

(** [s.startswith(p)] *)
Fixpoint startswith (p s : string) : bool :=
  match p, s with
  | EmptyString, _ => true
  | String a p', String b s' => if decide (a = b) then startswith p' s' else false
  | String _ _, EmptyString => false
  end.

Fixpoint drop_chars (n : nat) (s : string) : string :=
  match n, s with
  | O, _ => s
  | S n', String _ r => drop_chars n' r
  | S _, EmptyString => EmptyString
  end.

(** [s.replace(old, EmptyString)] for a non-empty [old]: every occurrence,
    scanning from the left, occurrences do not overlap. *)
Fixpoint remove_all_fuel (fuel : nat) (old s : string) : string :=
  match fuel with
  | O => s
  | S fuel' =>
      match s with
      | EmptyString => EmptyString
      | String c r =>
          if startswith old s
          then remove_all_fuel fuel' old (drop_chars (String.length old) s)
          else String c (remove_all_fuel fuel' old r)
      end
  end.
Definition remove_all (old s : string) : string :=
  remove_all_fuel (String.length s) old s.

Definition digit_value (c : ascii) : Z := Z.of_N (ord c) - 48.

(** The digit part of an [int()] literal: decimals, single underscores
    only between two decimals. *)
Fixpoint int_digits (acc : Z) (after_digit : bool) (s : string) : option Z :=
  match s with
  | EmptyString => if after_digit then Some acc else None
  | String c r =>
      if is_decimal c then int_digits (10 * acc + digit_value c) true r
      else if is_code 95 c && after_digit then int_digits acc false r
      else None
  end.

(** The white space [int()] skips around a literal; unlike [str.strip] it
    does not skip U+001C..U+001F. *)
Definition is_int_space (c : ascii) : bool :=
  between 9 13 c || is_code 32 c || is_code 133 c || is_code 160 c.

(** [int(s)]: surrounding white space, an optional sign, the digits. *)
Definition int (s : string) : result Z :=
  let body := rstrip_by is_int_space (lstrip_by is_int_space s) in
  let parsed :=
    match body with
    | String c r =>
        if is_code 45 c then Z.opp <$> int_digits 0 false r
        else if is_code 43 c then int_digits 0 false r
        else int_digits 0 false body
    | EmptyString => None
    end in
  match parsed with
  | Some z => Ok z
  | None => Raise (ValueError (InvalidLiteralForInt s))
  end.

(** [str(z)], as an f-string renders an [int]. *)
Definition str (z : Z) : string := NilZero.string_of_int (Z.to_int z).

End PyStr.

(** ** The outlet directory and the resolver *)

(** [Tuple[int, str, str]]: number, name, state. *)
Definition OutletRecord : Type := Z * string * string.
Definition number (r : OutletRecord) : Z := r.1.1.
Definition name (r : OutletRecord) : string := r.1.2.
Definition state (r : OutletRecord) : string := r.2.

Definition name_matches (arg : string) (r : OutletRecord) : bool :=
  bool_decide (PyStr.lower (name r) = PyStr.lower arg).

Definition resolve_outlet (arg : string) (table : list OutletRecord) : result Z :=
  if PyStr.isdigit arg then
    num ← PyStr.int arg;
    if existsb (λ r, num =? number r) table
    then Ok num
    else Raise (ValueError (OutletNumberNotPresent num))
  else
    let matches := number <$> List.filter (name_matches arg) table in
    match matches with
    | [m] => Ok m                                             (* len(matches) == 1 *)
    | _ :: _ :: _ => Raise (ValueError (MultipleOutletsNamed arg matches))
    | [] => Raise (ValueError (NoOutletNamed arg))
    end.

(** ** Outlet operations and the actuator's query *)

Inductive OutletOperation := ON | OFF.

(** [op.value]: the firmware's code of the operation. *)
Definition value (op : OutletOperation) : string :=
  match op with
  | ON => "0"    (* switch relay ON *)
  | OFF => "1"   (* switch relay OFF *)
  end.

(** The f-string [query] of [set_outlet]. *)
Definition set_outlet_query (outlet : Z) (op : OutletOperation) : string :=
  "outlet" +:+ PyStr.str outlet +:+ "=1&op=" +:+ value op +:+ "&submit=Apply".

(** ** The fetcher's URL *)

Definition is_slash (c : ascii) : bool := PyStr.is_code 47 c.

(** The f-string handed to [requests.get] by [fetch]. *)
Definition fetch_url (base_url path : string) : string :=
  base_url +:+ "/" +:+ PyStr.lstrip_by is_slash path.

(** ** The document tree of [bs4] *)

(** A tag with its attribute dictionary and contents, or a text node.
    Comments and the other strings that [get_text] passes over are not
    nodes of the model. *)
Inductive Node :=
  | Tag (tag : string) (attrs : gmap string string) (contents : list Node)
  | NavigableString (text : string).

(** An element of a soup is addressed by the child indices leading to it. *)
Definition path : Type := list nat.

Fixpoint node_at (n : Node) (p : path) : option Node :=
  match p with
  | [] => Some n
  | i :: p' =>
      match n with
      | Tag _ _ cs => c ← cs !! i; node_at c p'
      | NavigableString _ => None
      end
  end.

(** All nodes below [n], in document order. *)
Fixpoint descendants (n : Node) : list path :=
  match n with
  | NavigableString _ => []
  | Tag _ _ cs =>
      (fix below (i : nat) (cs : list Node) : list path :=
         match cs with
         | [] => []
         | c :: cs' => ([i] :: (cons i <$> descendants c)) ++ below (S i) cs'
         end) 0%nat cs
  end.

(** The nodes below the children [cs], the first of which has index [i]. *)
Fixpoint descendants_from (i : nat) (cs : list Node) : list path :=
  match cs with
  | [] => []
  | c :: cs' => ([i] :: (cons i <$> descendants c)) ++ descendants_from (S i) cs'
  end.

(** The strings below [n], in document order. *)
Fixpoint all_strings (n : Node) : list string :=
  match n with
  | NavigableString s => [s]
  | Tag _ _ cs =>
      (fix each (cs : list Node) : list string :=
         match cs with
         | [] => []
         | c :: cs' => all_strings c ++ each cs'
         end) cs
  end.

Definition concat_strings (l : list string) : string :=
  foldr String.append EmptyString l.

Definition nonempty (s : string) : bool :=
  match s with EmptyString => false | String _ _ => true end.

(** [n.get_text(strip=True)]: every string is stripped on its own, the ones
    that become empty are left out, the rest are joined without separator. *)
Definition get_text_strip (n : Node) : string :=
  concat_strings (List.filter nonempty (PyStr.strip <$> all_strings n)).

Definition is_tag (tag : string) (want : list (string * string)) (n : Node) : bool :=
  match n with
  | Tag t a _ =>
      bool_decide (t = tag) && forallb (λ kv, bool_decide (a !! kv.1 = Some kv.2)) want
  | NavigableString _ => false
  end.

(** [e.find_all(tag, want)] for the element [e] at path [at_] of [soup]. *)
Definition find_all (soup : Node) (at_ : path) (tag : string)
    (want : list (string * string)) : list path :=
  match node_at soup at_ with
  | Some e =>
      (app at_) <$>
        List.filter (λ p, from_option (is_tag tag want) false (node_at e p)) (descendants e)
  | None => []
  end.

(** [e.parents]: nearest first, up to the soup itself. *)
Definition parents (p : path) : list path :=
  (λ k, take k p) <$> reverse (seq 0 (length p)).

(** [e.find_parent(tag)] *)
Definition find_parent (soup : Node) (p : path) (tag : string) : option path :=
  head (List.filter (λ q, from_option (is_tag tag []) false (node_at soup q)) (parents p)).

(** [e.get(key, dflt)] *)
Definition get_attr (soup : Node) (p : path) (key dflt : string) : string :=
  match node_at soup p with
  | Some (Tag _ a _) => default dflt (a !! key)
  | _ => dflt
  end.

(** [_RX_CHECKBOX.fullmatch(s)], giving group 1 of the match. *)
Definition rx_checkbox_fullmatch (s : string) : option string :=
  let digits := PyStr.drop_chars 6 s in
  if PyStr.startswith "outlet" s && nonempty digits && PyStr.all_chars PyStr.is_decimal digits
  then Some digits
  else None.

(** ** The element tree of [xml.etree.ElementTree] *)

(** [elem.text] is the text between the start tag and the first child (or
    the end tag when there is no child), [None] when there is none; text
    that follows a child is the child's tail and no part of it. *)
Inductive Element :=
  | Elem (tag : string) (text : option string) (children : list Element).

Definition elem_tag (e : Element) : string := let 'Elem t _ _ := e in t.
Definition elem_text (e : Element) : option string := let 'Elem _ t _ := e in t.
Definition elem_children (e : Element) : list Element := let 'Elem _ _ c := e in c.

(** ** The scrapers and the directory builder *)

Definition Auth : Type := string * string.

Section Device.

(** [requests.get(url, auth=auth, timeout=timeout)] followed by
    [raise_for_status()] and [.text]. *)
Variable http_get : string → Auth → Z → result string.
(** [BeautifulSoup(html, "html.parser")]; the result is the soup object, a
    tag named [[document]]. *)
Variable BeautifulSoup : string → Node.
(** [ET.fromstring(xml_text)]; [None] stands for [ParseError]. *)
Variable ET_fromstring : string → option Element.
(** The headless browser session of [set_outlet]: open the URL with the
    credentials, click the Apply control, close; the time-out is in
    milliseconds. *)
Variable browser_apply : string → Auth → Z → result unit.

Definition fetch (base_url path : string) (auth : Auth) (timeout : Z) : result string :=
  http_get (fetch_url base_url path) auth timeout.

(** One turn of the loop of [parse_names] for the checkbox [cb]. *)
Definition parse_names_step (soup : Node) (names : gmap Z string) (cb : path)
    : result (gmap Z string) :=
  match rx_checkbox_fullmatch (get_attr soup cb "name" EmptyString) with
  | None => Ok names                                    (* continue *)
  | Some digits =>
      num ← PyStr.int digits;
      match find_parent soup cb "tr" with
      | None => Raise AttributeError                    (* None.find_all *)
      | Some tr =>
          match find_all soup tr "td" [] with
          | [] => Raise IndexError                      (* [][0] *)
          | td :: _ =>
              Ok (<[num := from_option get_text_strip EmptyString (node_at soup td)]> names)
          end
      end
  end.

Fixpoint parse_names_loop (soup : Node) (cbs : list path) (names : gmap Z string)
    : result (gmap Z string) :=
  match cbs with
  | [] => Ok names
  | cb :: rest => names' ← parse_names_step soup names cb; parse_names_loop soup rest names'
  end.

Definition checkboxes (soup : Node) : list path :=
  find_all soup [] "input" [("type", "checkbox")]%string.

Definition parse_names (html : string) : result (gmap Z string) :=
  let soup := BeautifulSoup html in
  parse_names_loop soup (checkboxes soup) ∅.

(** One turn of the loop of [parse_status]. *)
Definition parse_status_step (states : gmap Z string) (elem : Element)
    : result (gmap Z string) :=
  if PyStr.startswith "outletStat" (elem_tag elem) then
    num ← PyStr.int (PyStr.remove_all "outletStat" (elem_tag elem));
    match elem_text elem with
    | None => Raise AttributeError                      (* None.strip *)
    | Some t => Ok (<[num := PyStr.upper (PyStr.strip t)]> states)
    end
  else Ok states.

Fixpoint parse_status_loop (elems : list Element) (states : gmap Z string)
    : result (gmap Z string) :=
  match elems with
  | [] => Ok states
  | elem :: rest => states' ← parse_status_step states elem; parse_status_loop rest states'
  end.

Definition parse_status (xml_text : string) : result (gmap Z string) :=
  match ET_fromstring xml_text with
  | None => Raise ParseError
  | Some root => parse_status_loop (elem_children root) ∅
  end.

(** [sorted(names)]: the keys in ascending order. *)
Definition sorted_keys (names : gmap Z string) : list Z :=
  merge_sort Z.le (fst <$> map_to_list names).

(** The list comprehension of [list_outlets]. *)
Fixpoint outlet_rows (names stats : gmap Z string) (keys : list Z)
    : result (list OutletRecord) :=
  match keys with
  | [] => Ok []
  | n :: rest =>
      nm ← match names !! n with Some nm => Ok nm | None => Raise (KeyError n) end;
      rows ← outlet_rows names stats rest;
      Ok ((n, nm, default "(unknown)"%string (stats !! n)) :: rows)
  end.

Definition directory (names stats : gmap Z string) : result (list OutletRecord) :=
  outlet_rows names stats (sorted_keys names).

Definition list_outlets (base_url : string) (auth : Auth) (timeout : Z)
    : result (list OutletRecord) :=
  html ← fetch base_url "control_outlet.htm" auth timeout;
  names ← parse_names html;
  xml_text ← fetch base_url "status.xml" auth timeout;
  stats ← parse_status xml_text;
  directory names stats.

Definition set_outlet (base_url : string) (outlet : Z) (op : OutletOperation)
    (auth : Auth) (timeout : Z) : result unit :=
  let query := set_outlet_query outlet op in
  browser_apply (base_url +:+ "/control_outlet.htm?" +:+ query) auth (timeout * 1000).

End Device.

(** ** The command line *)

(** The namespace [parse_args] returns for the parser of [build_cli]:
    [-u], [-p], [-H], [-t] (an [int], 5 by default), [-l], [-o] and [-s]
    (absent options are [None]). *)
Record Namespace := {
  arg_user : string;
  arg_password : string;
  arg_host : string;
  arg_timeout : Z;
  arg_list : bool;
  arg_outlet : option string;
  arg_state : option string
}.

(** What [parser.error] is called with. *)
Inductive UsageError :=
  | StateRequired                       (* -s/--state is required when using -o/--outlet *)
  | OfValueError (msg : ValueErrorMsg). (* str(exc) *)

(** How a run of [main] ends: it returns after printing the lines,
    [parser.error] exits with status 2, or an exception leaves [main]. *)
Inductive Outcome :=
  | Returned (printed : list string)
  | Exit2 (why : UsageError)
  | Uncaught (e : exn)
  | UncaughtStopIteration.

(** [s.strip(chars)] for a set of characters given as a predicate. *)
Definition strip_by (p : ascii → bool) (s : string) : string :=
  PyStr.rstrip_by p (PyStr.lstrip_by p s).

Fixpoint spaces (k : nat) : string :=
  match k with
  | O => EmptyString
  | S k' => String " " (spaces k')
  end.

(** The format [{s:<w}] of an f-string: padded on the right, never cut. *)
Definition ljust (w : nat) (s : string) : string :=
  s +:+ spaces (w - String.length s).

(** The line [main] prints for a record in list mode. *)
Definition list_line (r : OutletRecord) : string :=
  PyStr.str (number r) +:+ "  " +:+ ljust 15 (name r) +:+ "  " +:+ state r.

(** [next(name for n, name, _ in table if n == outlet_num)];
    [None] stands for [StopIteration]. *)
Definition next_name (outlet_num : Z) (table : list OutletRecord) : option string :=
  head (name <$> List.filter (λ r, number r =? outlet_num) table).

(** The operation [main] chooses for the value of [-s]. *)
Definition operation_of_state (st : string) : OutletOperation :=
  if decide (st = "1"%string) then ON else OFF.

Definition operation_word (op : OutletOperation) : string :=
  match op with ON => "ON" | OFF => "OFF" end.

(** The line [main] prints after a successful command. *)
Definition confirmation_line (outlet_num : Z) (outlet_name : string)
    (op : OutletOperation) : string :=
  "Outlet " +:+ PyStr.str outlet_num +:+ " (" +:+ outlet_name +:+ ") set to " +:+
  operation_word op +:+ ".".

Section Cli.

Variable http_get : string → Auth → Z → result string.
Variable BeautifulSoup : string → Node.
Variable ET_fromstring : string → option Element.
Variable browser_apply : string → Auth → Z → result unit.

(** [main], from the namespace on. *)
Definition main (args : Namespace) : Outcome :=
  let base_url := "http://" +:+ strip_by is_slash (arg_host args) in
  let auth := (arg_user args, arg_password args) in
  if arg_list args then
    match list_outlets http_get BeautifulSoup ET_fromstring base_url auth (arg_timeout args) with
    | Raise e => Uncaught e
    | Ok rows => Returned (list_line <$> rows)
    end
  else
    match arg_state args with
    | None => Exit2 StateRequired
    | Some st =>
        match list_outlets http_get BeautifulSoup ET_fromstring base_url auth
                (arg_timeout args) with
        | Raise e => Uncaught e
        | Ok table =>
            match arg_outlet args with
            | None => Uncaught AttributeError                 (* None.isdigit *)
            | Some token =>
                match resolve_outlet token table with
                | Raise (ValueError msg) => Exit2 (OfValueError msg)
                | Raise e => Uncaught e
                | Ok outlet_num =>
                    match next_name outlet_num table with
                    | None => UncaughtStopIteration
                    | Some outlet_name =>
                        let op := operation_of_state st in
                        match set_outlet browser_apply base_url outlet_num op auth
                                (arg_timeout args) with
                        | Raise e => Uncaught e
                        | Ok _ => Returned [confirmation_line outlet_num outlet_name op]
                        end
                    end
                end
            end
        end
    end.

End Cli.



(** A top-level element is accepted when, if its tag begins with the
    prefix, the tag without any occurrence of the prefix is an integer
    literal and the element has a text. *)
Definition accepted_status (e : Element) : Prop :=
  PyStr.startswith "outletStat" (elem_tag e) = true →
  returns (PyStr.int (PyStr.remove_all "outletStat" (elem_tag e))) ∧
  is_Some (elem_text e).

(** ** The words of the specification *)

(** "The token consists only of decimal digits": one or more of 0..9. *)
Definition decimal_token (s : string) : bool :=
  nonempty s && PyStr.all_chars PyStr.is_decimal s.

(** The number a string of decimals denotes. *)
Fixpoint decimal_value_from (acc : Z) (s : string) : Z :=
  match s with
  | EmptyString => acc
  | String c r => decimal_value_from (10 * acc + PyStr.digit_value c) r
  end.
Definition decimal_value (s : string) : Z := decimal_value_from 0 s.

(** A run of [k] slashes. *)
Fixpoint slashes (k : nat) : string :=
  match k with
  | O => EmptyString
  | S k' => String "/" (slashes k')
  end.

Definition starts_with_slash (s : string) : bool :=
  match s with
  | String c _ => is_slash c
  | EmptyString => false
  end.

(** "Stripping a single leading slash". *)
Definition strip_one_slash (path : string) : string :=
  match path with
  | String c r => if is_slash c then r else path
  | EmptyString => EmptyString
  end.
Definition fetch_url_spec (base_url path : string) : string :=
  base_url +:+ "/" +:+ strip_one_slash path.

(** "Strips exactly that prefix from the tag". *)
Definition strip_prefix (p s : string) : string :=
  if PyStr.startswith p s then PyStr.drop_chars (String.length p) s else s.

(** The entry a top-level element of the status document stands for: its
    tag begins with the prefix, the rest of the tag is an integer, and the
    state is the text, trimmed and upper-cased. *)
Definition status_entry (e : Element) : option (Z * string) :=
  if PyStr.startswith "outletStat" (elem_tag e) then
    match PyStr.int (strip_prefix "outletStat" (elem_tag e)), elem_text e with
    | Ok n, Some t => Some (n, PyStr.upper (PyStr.strip t))
    | _, _ => None
    end
  else None.

(** The entry a checkbox stands for: its name is outlet and a number, it
    lies in a row, and the name of the outlet is the text of the first td
    of the nearest enclosing row. *)
Definition names_entry (soup : Node) (cb : path) : option (Z * string) :=
  digits ← rx_checkbox_fullmatch (get_attr soup cb "name" EmptyString);
  tr ← find_parent soup cb "tr";
  td ← head (find_all soup tr "td" []);
  cell ← node_at soup td;
  Some (decimal_value digits, get_text_strip cell).

(** A checkbox lies in a row when, if its name is outlet and a number, its
    nearest enclosing tr (the one [find_parent] gives) has a td inside; an
    outer tr does not count. *)
Definition in_row (soup : Node) (cb : path) : Prop :=
  is_Some (rx_checkbox_fullmatch (get_attr soup cb "name" EmptyString)) →
  ∃ tr td, find_parent soup cb "tr" = Some tr ∧ head (find_all soup tr "td" []) = Some td.

(** A top-level element is well formed when, if its tag begins with the
    prefix, the rest of the tag is an integer literal and it has a text. *)
Definition well_formed_status (e : Element) : Prop :=
  PyStr.startswith "outletStat" (elem_tag e) = true →
  returns (PyStr.int (strip_prefix "outletStat" (elem_tag e))) ∧ is_Some (elem_text e).

(** The record of the directory for the key [n]. *)
Definition row_of (names stats : gmap Z string) (n : Z) : OutletRecord :=
  (n, default EmptyString (names !! n), default "(unknown)"%string (stats !! n)).

(** The characters of an integer literal: white space, signs, decimals and
    the underscore. *)
Definition is_int_char (c : ascii) : bool :=
  PyStr.is_int_space c || PyStr.is_code 45 c || PyStr.is_code 43 c ||
  PyStr.is_decimal c || PyStr.is_code 95 c.

(** The assignments [m[k] = v] of a loop, in the order of the list. *)
Definition assign_all (l : list (Z * string)) (m : gmap Z string) : gmap Z string :=
  foldl (λ m kv, <[kv.1 := kv.2]> m) m l.

(** "The leading/trailing-whitespace-trimmed text of the cell": the text
    content of the node, trimmed at both ends. *)
Definition trimmed_text (n : Node) : string :=
  PyStr.strip (concat_strings (all_strings n)).

(** ** Sample inputs *)

(** The one-character token U+00B2 (superscript two). *)
Definition superscript_two : string := String (PyStr.chr 178) EmptyString.

(** A checkbox input with the given [name] attribute. *)
Definition checkbox_input (nm : string) : Node :=
  Tag "input" {[ "type" := "checkbox"; "name" := nm ]}%string [].

(** A table row: a first cell with the given contents, a second cell with
    the checkbox. *)
Definition outlet_row (cell : list Node) (nm : string) : Node :=
  Tag "tr" ∅ [Tag "td" ∅ cell; Tag "td" ∅ [checkbox_input nm]].

(** The control page of a unit with the outlets 3 (Lamp) and 1 (Fan) and a
    select-all checkbox. *)
Definition sample_soup : Node :=
  Tag "[document]" ∅
    [Tag "table" ∅
       [Tag "tr" ∅ [Tag "th" ∅ [checkbox_input "outlet_check_all"]];
        outlet_row [NavigableString " Lamp "] "outlet3";
        outlet_row [NavigableString "Fan"] "outlet1"]].

(** The status document: outlet 3 is on, outlet 7 is off, nothing about
    outlet 1. *)
Definition sample_status : Element :=
  Elem "response" None
    [Elem "outletStat3" (Some " on ") []; Elem "uptime" (Some "12") [];
     Elem "outletStat7" (Some "off") []]%string.

(** A page whose only checkbox lies outside any table. *)
Definition no_row_soup : Node :=
  Tag "[document]" ∅ [checkbox_input "outlet1"].

(** A page whose first cell holds two strings, one of them in bold. *)
Definition two_strings_soup : Node :=
  Tag "[document]" ∅
    [Tag "table" ∅
       [outlet_row [NavigableString "Rack "; Tag "b" ∅ [NavigableString "A"]] "outlet1"]].

(** What the HTML parser returns on the sample pages; any other text is
    taken as a page without markup. *)
Definition sample_html_parser (html : string) : Node :=
  if decide (html = "<table><tr><th><input type=checkbox name=outlet_check_all></th></tr><tr><td> Lamp </td><td><input type=checkbox name=outlet3></td></tr><tr><td>Fan</td><td><input type=checkbox name=outlet1></td></tr></table>"%string)
  then sample_soup
  else if decide (html = "<input type=checkbox name=outlet1>"%string)
  then no_row_soup
  else if decide (html = "<table><tr><td>Rack <b>A</b></td><td><input type=checkbox name=outlet1></td></tr></table>"%string)
  then two_strings_soup
  else Tag "[document]" ∅ [NavigableString html].

(** A status document whose only element repeats the prefix in its tag. *)
Definition repeated_prefix_status : Element :=
  Elem "response" None [Elem "outletStat1outletStat2" (Some "on") []]%string.

(** A status document with an empty element for outlet 1. *)
Definition empty_text_status : Element :=
  Elem "response" None [Elem "outletStat1" None []]%string.

(** A status document with a tag that is the prefix and a letter. *)
Definition letter_tag_status : Element :=
  Elem "response" None [Elem "outletStatA" (Some "on") []]%string.

(** What [ET.fromstring] returns on the sample documents. *)
Definition sample_fromstring (xml_text : string) : option Element :=
  if decide (xml_text = "<response><outletStat3> on </outletStat3><uptime>12</uptime><outletStat7>off</outletStat7></response>"%string)
  then Some sample_status
  else if decide (xml_text = "<response><outletStat1outletStat2>on</outletStat1outletStat2></response>"%string)
  then Some repeated_prefix_status
  else if decide (xml_text = "<response><outletStat1/></response>"%string)
  then Some empty_text_status
  else if decide (xml_text = "<response><outletStatA>on</outletStatA></response>"%string)
  then Some letter_tag_status
  else None.

(** A device that serves the sample page and the sample status document. *)
Definition sample_http_get (url : string) (auth : Auth) (timeout : Z) : result string :=
  if decide (url = "http://pdu/control_outlet.htm"%string)
  then Ok "<table><tr><th><input type=checkbox name=outlet_check_all></th></tr><tr><td> Lamp </td><td><input type=checkbox name=outlet3></td></tr><tr><td>Fan</td><td><input type=checkbox name=outlet1></td></tr></table>"%string
  else if decide (url = "http://pdu/status.xml"%string)
  then Ok "<response><outletStat3> on </outletStat3><uptime>12</uptime><outletStat7>off</outletStat7></response>"%string
  else Raise RequestException.

(** The namespace with another value of [-H]. *)
Definition with_host (h : string) (args : Namespace) : Namespace :=
  {| arg_user := arg_user args; arg_password := arg_password args; arg_host := h;
     arg_timeout := arg_timeout args; arg_list := arg_list args;
     arg_outlet := arg_outlet args; arg_state := arg_state args |}.

(** The characters of [s] before the first one that satisfies [p]. *)
Fixpoint take_until (p : ascii → bool) (s : string) : string :=
  match s with
  | EmptyString => EmptyString
  | String c r => if p c then EmptyString else String c (take_until p r)
  end.

(** The number a query names: what stands between outlet and the first
    equals sign, read by [int]. *)
Definition query_outlet (query : string) : result Z :=
  PyStr.int (take_until (PyStr.is_code 61) (PyStr.drop_chars 6 query)).

(** A string that does not begin with a character of the set [p]. *)
Definition head_kept (p : ascii → bool) (s : string) : Prop :=
  match s with
  | EmptyString => True
  | String c _ => p c = false
  end.

(** A string that neither begins nor ends with a character of the set. *)
Definition tight (p : ascii → bool) (s : string) : Prop :=
  head_kept p s ∧ PyStr.rstrip_by p s = s.

(** A string without white space at either end. *)
Definition trimmed (s : string) : Prop := PyStr.strip s = s.

(** A page whose row has header cells only. *)
Definition th_row_soup : Node :=
  Tag "[document]" ∅
    [Tag "table" ∅
       [Tag "tr" ∅ [Tag "th" ∅ [NavigableString "Lamp"];
                    Tag "th" ∅ [checkbox_input "outlet3"]]]].

(** What the HTML parser returns on that page and on the sample pages. *)
Definition th_row_parser (html : string) : Node :=
  if decide (html = "<table><tr><th>Lamp</th><th><input type=checkbox name=outlet3></th></tr></table>"%string)
  then th_row_soup
  else sample_html_parser html.

(** A browser session that succeeds on the control URL of the sample
    device with the code 0 and fails on any other URL. *)
Definition sample_browser (url : string) (auth : Auth) (timeout : Z) : result unit :=
  if decide (url = "http://pdu/control_outlet.htm?outlet3=1&op=0&submit=Apply"%string)
  then Ok tt
  else Raise RequestException.

(** The command line [-u admin -p secret -H pdu/ -o lamp -s 1]. *)
Definition sample_args : Namespace :=
  {| arg_user := "admin"; arg_password := "secret"; arg_host := "pdu/";
     arg_timeout := 5; arg_list := false;
     arg_outlet := Some "lamp"%string; arg_state := Some "1"%string |}.


(** A page with two outlets of the same name up to case, 5 before 2. *)
Definition twin_soup : Node :=
  Tag "[document]" ∅
    [Tag "table" ∅
       [outlet_row [NavigableString "Pump"] "outlet5";
        outlet_row [NavigableString "PUMP"] "outlet2"]].

(** What the HTML parser returns on that page and on the sample pages. *)
Definition twin_parser (html : string) : Node :=
  if decide (html = "<table><tr><td>Pump</td><td><input type=checkbox name=outlet5></td></tr><tr><td>PUMP</td><td><input type=checkbox name=outlet2></td></tr></table>"%string)
  then twin_soup
  else sample_html_parser html.

(** A device that serves that page and the sample status document. *)
Definition twin_http_get (url : string) (auth : Auth) (timeout : Z) : result string :=
  if decide (url = "http://pdu/control_outlet.htm"%string)
  then Ok "<table><tr><td>Pump</td><td><input type=checkbox name=outlet5></td></tr><tr><td>PUMP</td><td><input type=checkbox name=outlet2></td></tr></table>"%string
  else sample_http_get url auth timeout.

(** A page where the row of the checkbox has header cells only and lies in
    a cell of an outer row. *)
Definition nested_row_soup : Node :=
  Tag "[document]" ∅
    [Tag "table" ∅
       [Tag "tr" ∅
          [Tag "td" ∅
             [Tag "table" ∅
                [Tag "tr" ∅ [Tag "th" ∅ [NavigableString "Lamp"];
                             Tag "th" ∅ [checkbox_input "outlet3"]]]]]]].

(** * Properties *)

(** ** Characters *)

Section Characters.
Import PyStr.

Lemma between_spec lo hi c :
  between lo hi c = true ↔ (lo ≤ ord c ∧ ord c ≤ hi)%N.
Proof. unfold between. rewrite andb_true_iff, !N.leb_le. done. Qed.

Lemma is_code_spec n c : is_code n c = true ↔ ord c = n.
Proof. unfold is_code. apply N.eqb_eq. Qed.

Lemma is_code_false n c : ord c ≠ n → is_code n c = false.
Proof. unfold is_code. apply N.eqb_neq. Qed.

Lemma between_false lo hi c :
  (ord c < lo ∨ hi < ord c)%N → between lo hi c = false.
Proof.
  intros H. apply not_true_is_false. rewrite between_spec. lia.
Qed.

Lemma decimal_is_digit c : is_decimal c = true → is_digit c = true.
Proof. unfold is_digit. by intros ->. Qed.

Lemma decimal_not_int_space c : is_decimal c = true → is_int_space c = false.
Proof.
  unfold is_decimal, is_int_space. rewrite between_spec. intros [Hlo Hhi].
  rewrite between_false, !is_code_false by lia. done.
Qed.

Lemma decimal_not_sign c :
  is_decimal c = true → is_code 45 c = false ∧ is_code 43 c = false.
Proof.
  unfold is_decimal. rewrite between_spec. intros [Hlo Hhi].
  rewrite !is_code_false by lia. done.
Qed.

Lemma digit_cases c :
  is_digit c = true →
  is_decimal c = true ∨ ord c = 178%N ∨ ord c = 179%N ∨ ord c = 185%N.
Proof.
  unfold is_digit. rewrite !orb_true_iff, !is_code_spec. tauto.
Qed.

Lemma digit_not_int_space c : is_digit c = true → is_int_space c = false.
Proof.
  intros [H | H]%digit_cases; [by apply decimal_not_int_space |].
  unfold is_int_space. rewrite between_false, !is_code_false by lia. done.
Qed.

Lemma digit_not_sign c :
  is_digit c = true → is_code 45 c = false ∧ is_code 43 c = false.
Proof.
  intros [H | H]%digit_cases; [by apply decimal_not_sign |].
  rewrite !is_code_false by lia. done.
Qed.

Lemma digit_not_underscore c : is_digit c = true → is_code 95 c = false.
Proof.
  intros [H | H]%digit_cases.
  - unfold is_decimal in H. apply between_spec in H. apply is_code_false. lia.
  - apply is_code_false. lia.
Qed.

Lemma digit_value_range c : is_decimal c = true → 0 ≤ digit_value c ≤ 9.
Proof.
  unfold is_decimal, digit_value. rewrite between_spec. lia.
Qed.

End Characters.

(** ** Strings *)

Section Strings.
Import PyStr.

Lemma all_chars_impl (p q : ascii → bool) s :
  (∀ c, p c = true → q c = true) → all_chars p s = true → all_chars q s = true.
Proof.
  intros Hpq. induction s as [| c r IH]; simpl; [done |].
  rewrite !andb_true_iff. intros [Hc Hr]. auto.
Qed.

Lemma lstrip_by_head p c r : p c = false → lstrip_by p (String c r) = String c r.
Proof. simpl. by intros ->. Qed.

Lemma rstrip_by_none p q s :
  (∀ c, q c = true → p c = false) → all_chars q s = true → rstrip_by p s = s.
Proof.
  intros Hq. induction s as [| c r IH]; simpl; [done |].
  rewrite andb_true_iff. intros [Hc Hr]. rewrite (IH Hr).
  destruct r; [by rewrite (Hq c Hc) | done].
Qed.

Lemma append_empty_r s : s +:+ EmptyString = s.
Proof.
  induction s as [| c r IH]; [done |].
  change (String c (r +:+ EmptyString) = String c r). by rewrite IH.
Qed.

Lemma lower_length s : String.length (lower s) = String.length s.
Proof. induction s; simpl; congruence. Qed.

Lemma int_digits_decimal acc c r :
  all_chars is_decimal (String c r) = true →
  ∀ b, int_digits acc b (String c r) = Some (decimal_value_from acc (String c r)).
Proof.
  revert acc c. induction r as [| d r IH]; intros acc c; simpl;
    rewrite andb_true_iff; intros [Hc Hr] b; rewrite Hc; [done |].
  by apply IH.
Qed.

Lemma int_digits_superscript acc b s :
  all_chars is_digit s = true → all_chars is_decimal s = false →
  int_digits acc b s = None.
Proof.
  revert acc b. induction s as [| c r IH]; intros acc b; simpl; [done |].
  rewrite andb_true_iff. intros [Hc Hr] Hdec.
  destruct (is_decimal c) eqn:Hd; simpl in Hdec.
  - by apply IH.
  - by rewrite (digit_not_underscore c Hc).
Qed.

Lemma int_unstripped s :
  isdigit s = true →
  rstrip_by is_int_space (lstrip_by is_int_space s) = s.
Proof.
  destruct s as [| c r]; [done |]. unfold isdigit. intros Hall.
  assert (is_digit c = true) as Hc by (simpl in Hall; by apply andb_true_iff in Hall as [? _]).
  rewrite lstrip_by_head by by apply digit_not_int_space.
  by apply (rstrip_by_none _ is_digit); [apply digit_not_int_space |].
Qed.

Lemma decimal_token_isdigit s : decimal_token s = true → isdigit s = true.
Proof.
  unfold decimal_token. rewrite andb_true_iff. intros [Hne Hall].
  destruct s; [done |]. unfold isdigit.
  by apply (all_chars_impl is_decimal); [apply decimal_is_digit |].
Qed.

(** [int] reads a string of decimals as the number it denotes. *)
Lemma int_decimal_token s : decimal_token s = true → int s = Ok (decimal_value s).
Proof.
  intros Hs. pose proof (decimal_token_isdigit s Hs) as Hdig.
  unfold int. rewrite (int_unstripped s Hdig).
  unfold decimal_token in Hs. apply andb_true_iff in Hs as [Hne Hall].
  destruct s as [| c r]; [done |].
  assert (is_decimal c = true) as Hc by (simpl in Hall; by apply andb_true_iff in Hall as [? _]).
  destruct (decimal_not_sign c Hc) as [-> ->].
  by rewrite (int_digits_decimal 0 c r Hall).
Qed.

(** [int] rejects a string that [isdigit] accepts as soon as one of its
    characters is a superscript. *)
Lemma int_superscript s :
  isdigit s = true → decimal_token s = false →
  int s = Raise (ValueError (InvalidLiteralForInt s)).
Proof.
  intros Hdig Hdec. unfold int. rewrite (int_unstripped s Hdig).
  destruct s as [| c r]; [done |]. unfold isdigit in Hdig.
  unfold decimal_token in Hdec. simpl nonempty in Hdec. rewrite andb_true_l in Hdec.
  assert (is_digit c = true) as Hc by (simpl in Hdig; by apply andb_true_iff in Hdig as [? _]).
  destruct (digit_not_sign c Hc) as [-> ->].
  by rewrite (int_digits_superscript 0 false _ Hdig Hdec).
Qed.

Lemma decimal_value_from_nonneg acc s :
  0 ≤ acc → all_chars is_decimal s = true → 0 ≤ decimal_value_from acc s.
Proof.
  revert acc. induction s as [| c r IH]; intros acc Hacc; simpl; [done |].
  rewrite andb_true_iff. intros [Hc Hr]. apply IH; [| done].
  pose proof (digit_value_range c Hc). lia.
Qed.

End Strings.

(** ** Decimal numerals *)

Section Numerals.
Import PyStr.

Lemma string_of_uint_decimal d :
  all_chars is_decimal (NilEmpty.string_of_uint d) = true.
Proof. induction d as [| d IH | d IH | d IH | d IH | d IH | d IH | d IH | d IH | d IH | d IH]; done. Qed.

Lemma string_of_uint_nonempty d :
  d ≠ Nil → nonempty (NilEmpty.string_of_uint d) = true.
Proof. by destruct d. Qed.

Lemma decimal_value_revapp d a :
  decimal_value_from (Z.of_N (Unsigned.of_lu a)) (NilEmpty.string_of_uint d)
  = Z.of_N (Unsigned.of_lu (revapp d a)).
Proof.
  revert a.
  induction d as [| d IH | d IH | d IH | d IH | d IH | d IH | d IH | d IH | d IH | d IH];
    intros a; [done | ..];
    cbn [NilEmpty.string_of_uint decimal_value_from revapp]; rewrite <- IH; f_equal;
    cbn [Unsigned.of_lu]; unfold digit_value; simpl ord; lia.
Qed.

(** The string of a numeral denotes the number of the numeral. *)
Lemma decimal_value_string_of_uint d :
  decimal_value (NilEmpty.string_of_uint d) = Z.of_N (Pos.of_uint d).
Proof.
  unfold decimal_value. rewrite Unsigned.of_uint_alt.
  apply (decimal_value_revapp d Nil).
Qed.

Lemma int_digits_string_of_uint d :
  d ≠ Nil →
  int_digits 0 false (NilEmpty.string_of_uint d) = Some (Z.of_N (Pos.of_uint d)).
Proof.
  intros Hd. pose proof (string_of_uint_decimal d) as Hall.
  pose proof (string_of_uint_nonempty d Hd) as Hne.
  destruct (NilEmpty.string_of_uint d) as [| c r] eqn:Hs; [done |].
  rewrite (int_digits_decimal 0 c r Hall). f_equal.
  rewrite <- decimal_value_string_of_uint. by rewrite Hs.
Qed.

(** [int] reads back what [str] writes. *)
Lemma int_str z : int (str z) = Ok z.
Proof.
  destruct z as [| p | p]; [done | |].
  - unfold str. cbn [Z.to_int NilZero.string_of_int].
    pose proof (Unsigned.to_uint_nonnil p) as Hnil.
    assert (NilZero.string_of_uint (Pos.to_uint p)
            = NilEmpty.string_of_uint (Pos.to_uint p)) as ->
      by by destruct (Pos.to_uint p).
    rewrite int_decimal_token.
    + by rewrite decimal_value_string_of_uint, Unsigned.of_to.
    + unfold decimal_token.
      by rewrite string_of_uint_nonempty, string_of_uint_decimal.
  - unfold str. cbn [Z.to_int NilZero.string_of_int].
    pose proof (Unsigned.to_uint_nonnil p) as Hnil.
    assert (NilZero.string_of_uint (Pos.to_uint p)
            = NilEmpty.string_of_uint (Pos.to_uint p)) as ->
      by by destruct (Pos.to_uint p).
    unfold int. rewrite lstrip_by_head by done.
    rewrite (rstrip_by_none _ (λ c, is_code 45 c || is_decimal c)).
    + change (is_code 45 "-") with true. cbn match.
      rewrite int_digits_string_of_uint by done. by rewrite Unsigned.of_to.
    + intros c [Hc | Hc]%orb_true_iff; [| by apply decimal_not_int_space].
      apply is_code_spec in Hc. unfold is_int_space.
      rewrite between_false, !is_code_false by lia. done.
    + cbn [all_chars]. change (is_code 45 "-") with true. cbn [orb andb].
      generalize (string_of_uint_decimal (Pos.to_uint p)).
      apply all_chars_impl. intros c ->. apply orb_true_r.
Qed.

End Numerals.

(** ** Integer literals and the prefix of a status tag *)

Section Literals.
Import PyStr.

Lemma all_chars_lstrip p q s :
  all_chars q (lstrip_by p s) = true → all_chars (λ c, p c || q c) s = true.
Proof.
  induction s as [| c r IH]; simpl; [done |].
  destruct (p c) eqn:Hp; simpl; [done |].
  rewrite !andb_true_iff. intros [Hc Hr]. split; [done |].
  revert Hr. apply all_chars_impl. intros d ->. apply orb_true_r.
Qed.

Lemma all_chars_rstrip p q s :
  all_chars q (rstrip_by p s) = true → all_chars (λ c, p c || q c) s = true.
Proof.
  induction s as [| c r IH]; simpl; [done |].
  destruct (rstrip_by p r) as [| d r'] eqn:Hr.
  - intros Hc. rewrite (IH eq_refl), andb_true_r. destruct (p c); [done |].
    simpl in Hc. by rewrite andb_true_r in Hc.
  - simpl. rewrite !andb_true_iff. intros [Hc Hrest].
    rewrite Hc, orb_true_r. split; [done |]. apply IH. simpl.
    by rewrite andb_true_iff.
Qed.

Lemma int_digits_chars acc b s z :
  int_digits acc b s = Some z →
  all_chars (λ c, is_decimal c || is_code 95 c) s = true.
Proof.
  revert acc b. induction s as [| c r IH]; intros acc b; simpl; [done |].
  destruct (is_decimal c); simpl; [apply IH |].
  destruct (is_code 95 c); simpl; [| done].
  destruct b; simpl; [apply IH | done].
Qed.

(** A string that [int] accepts is made of white space, signs, decimals
    and underscores. *)
Lemma int_chars s z : int s = Ok z → all_chars is_int_char s = true.
Proof.
  unfold int. intros H.
  assert (all_chars (λ c, is_code 45 c || is_code 43 c || is_decimal c || is_code 95 c)
            (rstrip_by is_int_space (lstrip_by is_int_space s)) = true) as Hbody.
  { destruct (rstrip_by is_int_space (lstrip_by is_int_space s)) as [| c r];
      [done |].
    assert (∀ o : option Z, match o with Some z' => Ok z' | None =>
              Raise (ValueError (InvalidLiteralForInt s)) end = Ok z → o = Some z)
      as Hsome by (intros [z' |] Ho; [by injection Ho as -> | done]).
    apply Hsome in H. clear Hsome.
    assert (∀ t z', int_digits 0 false t = Some z' →
              all_chars (λ c, is_code 45 c || is_code 43 c || is_decimal c || is_code 95 c)
                t = true) as Hd.
    { intros t z' Ht. apply int_digits_chars in Ht. revert Ht.
      apply all_chars_impl. intros d Hdc.
      apply orb_true_iff in Hdc as [-> | ->]; by rewrite ?orb_true_r. }
    destruct (is_code 45 c) eqn:Hm.
    - simpl. rewrite Hm. simpl.
      destruct (int_digits 0 false r) as [z' |] eqn:Hr; [| done]. by eapply Hd.
    - destruct (is_code 43 c) eqn:Hp.
      + simpl. rewrite Hm, Hp. simpl. by eapply Hd.
      + by eapply Hd. }
  apply all_chars_rstrip, all_chars_lstrip in Hbody. revert Hbody.
  apply all_chars_impl. intros c. unfold is_int_char.
  by destruct (is_int_space c), (is_code 45 c), (is_code 43 c), (is_decimal c),
    (is_code 95 c).
Qed.

Lemma int_char_not_o c : is_int_char c = true → c ≠ "o"%char.
Proof. intros H ->. discriminate H. Qed.

Lemma remove_all_fuel_no_o fuel s :
  all_chars is_int_char s = true → remove_all_fuel fuel "outletStat" s = s.
Proof.
  revert s. induction fuel as [| fuel IH]; intros s; [done |].
  destruct s as [| c r]; [done |]. simpl all_chars.
  rewrite andb_true_iff. intros [Hc Hr]. simpl.
  destruct (decide ("o"%char = c)) as [<- | _]; [by apply int_char_not_o in Hc |].
  by rewrite IH.
Qed.

Lemma startswith_split p s :
  startswith p s = true → s = p +:+ drop_chars (String.length p) s.
Proof.
  revert s. induction p as [| a p IH]; intros s; [done |].
  destruct s as [| b s]; simpl; [done |].
  destruct (decide (a = b)) as [-> | _]; [| done].
  intros H. change (String b s = String b (p +:+ drop_chars (String.length p) s)).
  f_equal. by apply IH.
Qed.

Lemma remove_all_fuel_head fuel old c s :
  startswith old (String c s) = true →
  remove_all_fuel (S fuel) old (String c s) =
    remove_all_fuel fuel old (drop_chars (String.length old) (String c s)).
Proof. intros H. cbn [remove_all_fuel]. by rewrite H. Qed.

(** Where the rest of the tag after the prefix is an integer literal,
    removing every occurrence of the prefix, as the code does, leaves
    that rest. *)
Lemma remove_all_strip_prefix tag n :
  startswith "outletStat" tag = true →
  int (strip_prefix "outletStat" tag) = Ok n →
  remove_all "outletStat" tag = strip_prefix "outletStat" tag.
Proof.
  intros Hpre Hint. unfold strip_prefix in *. rewrite Hpre in *.
  apply int_chars in Hint. unfold remove_all.
  destruct tag as [| c tag]; [done |].
  cbn [String.length]. rewrite remove_all_fuel_head by done.
  by apply remove_all_fuel_no_o.
Qed.

End Literals.

(** ** Loops that fill a dictionary *)

Section Assignments.

Lemma assign_all_cons k v l (m : gmap Z string) :
  assign_all ((k, v) :: l) m = assign_all l (<[k := v]> m).
Proof. done. Qed.

Lemma assign_all_app l1 l2 (m : gmap Z string) :
  assign_all (l1 ++ l2) m = assign_all l2 (assign_all l1 m).
Proof. unfold assign_all. apply foldl_app. Qed.

Lemma assign_all_other (l : list (Z * string)) (m : gmap Z string) n :
  n ∉ l.*1 → assign_all l m !! n = m !! n.
Proof.
  revert m. induction l as [| [k v] l IH]; intros m Hn; [done |].
  apply not_elem_of_cons in Hn as [Hk Hl]. simpl in Hk.
  rewrite assign_all_cons.
  rewrite IH by done. by apply lookup_insert_ne.
Qed.

(** The last assignment to a key decides its value. *)
Lemma assign_all_last l1 l2 (m : gmap Z string) n v :
  n ∉ l2.*1 → assign_all (l1 ++ (n, v) :: l2) m !! n = Some v.
Proof.
  intros Hn. rewrite assign_all_app.
  rewrite assign_all_cons.
  rewrite assign_all_other by done. apply lookup_insert_eq.
Qed.

Lemma assign_all_lookup (l : list (Z * string)) (m : gmap Z string) n v :
  assign_all l m !! n = Some v → (n, v) ∈ l ∨ m !! n = Some v.
Proof.
  revert m. induction l as [| [k w] l IH]; intros m; [by right |].
  rewrite assign_all_cons.
  intros [H | H]%IH; [left; by right |].
  destruct (decide (k = n)) as [-> | Hne].
  - rewrite lookup_insert_eq in H. injection H as ->. left. left.
  - rewrite lookup_insert_ne in H by done. by right.
Qed.

Lemma assign_all_key (l : list (Z * string)) (m : gmap Z string) n :
  n ∈ l.*1 → is_Some (assign_all l m !! n).
Proof.
  revert m. induction l as [| [k w] l IH]; intros m Hn; [by apply elem_of_nil in Hn |].
  rewrite assign_all_cons.
  destruct (decide (n ∈ l.*1)) as [Hl | Hl]; [by apply IH |].
  rewrite assign_all_other by done.
  apply elem_of_cons in Hn as [-> | Hn]; [| done].
  simpl. rewrite lookup_insert_eq. by eexists.
Qed.

End Assignments.

(** ** Navigation in the document tree *)

Section Tree.

(** Induction on a node with the hypothesis for all its children. *)
Lemma Node_children_ind (P : Node → Prop) :
  (∀ t a cs, Forall P cs → P (Tag t a cs)) →
  (∀ s, P (NavigableString s)) →
  ∀ n, P n.
Proof.
  intros Htag Hstring. fix IH 1. intros [t a cs | s]; [| apply Hstring].
  apply Htag. induction cs as [| c cs IHcs]; constructor; [apply IH | apply IHcs].
Qed.

Lemma descendants_Tag t a cs : descendants (Tag t a cs) = descendants_from 0 cs.
Proof. reflexivity. Qed.

Lemma node_at_app n p q :
  node_at n (p ++ q) = m ← node_at n p; node_at m q.
Proof.
  revert n. induction p as [| i p IH]; intros n; [done |].
  destruct n as [t a cs | s]; [| done]. simpl.
  destruct (cs !! i) as [c |]; simpl; [apply IH | done].
Qed.

Lemma descendants_from_elem_of i cs q :
  q ∈ descendants_from i cs ↔
  ∃ j c q', cs !! j = Some c ∧ q = (i + j)%nat :: q' ∧ (q' = [] ∨ q' ∈ descendants c).
Proof.
  revert i. induction cs as [| c cs IH]; intros i; simpl.
  - split; [by intros ?%elem_of_nil | by intros (j & ? & ? & ? & _)].
  - rewrite elem_of_cons, elem_of_app, list_elem_of_fmap, IH. split.
    + intros [-> | [(q' & -> & Hq') | (j & d & q' & Hj & -> & Hq')]].
      * exists 0%nat, c, []. rewrite Nat.add_0_r. auto.
      * exists 0%nat, c, q'. rewrite Nat.add_0_r. auto.
      * exists (S j), d, q'. rewrite Nat.add_succ_r. auto.
    + intros ([| j] & d & q' & Hj & -> & Hq').
      * injection Hj as ->. rewrite Nat.add_0_r.
        destruct Hq' as [-> | Hq']; [by left | right; left; by exists q'].
      * right. right. exists j, d, q'. rewrite Nat.add_succ_r. auto.
Qed.

(** The descendants of a node are the non-empty paths that lead to a node. *)
Lemma descendants_elem_of n q :
  q ∈ descendants n ↔ q ≠ [] ∧ is_Some (node_at n q).
Proof.
  revert q. induction n as [t a cs IH | s] using Node_children_ind; intros q.
  - rewrite descendants_Tag, descendants_from_elem_of. split.
    + intros (j & c & q' & Hj & -> & Hq'). split; [done |]. simpl. rewrite Hj. simpl.
      destruct Hq' as [-> | Hq']; [by eexists |].
      rewrite Forall_lookup in IH. by apply (IH j c Hj).
    + intros [Hne Hsome]. destruct q as [| j q']; [done |]. simpl in Hsome.
      destruct (cs !! j) as [c |] eqn:Hj; [| by destruct Hsome].
      exists j, c, q'. split; [done |]. split; [done |].
      destruct q' as [| k q'']; [by left |]. right.
      rewrite Forall_lookup in IH. by apply (IH j c Hj).
  - simpl. split; [by intros ?%elem_of_nil |].
    intros [Hne Hsome]. destruct q; [done | by destruct Hsome].
Qed.

Lemma elem_of_bool_filter {A} (f : A → bool) (l : list A) x :
  x ∈ List.filter f l ↔ x ∈ l ∧ f x = true.
Proof. rewrite !list_elem_of_In. apply filter_In. Qed.

(** [find_all] gives the tags of the wanted kind strictly below the
    element. *)
Lemma find_all_elem_of soup at_ tag want p :
  p ∈ find_all soup at_ tag want ↔
  ∃ q n, p = at_ ++ q ∧ q ≠ [] ∧ node_at soup p = Some n ∧ is_tag tag want n = true.
Proof.
  unfold find_all. destruct (node_at soup at_) as [e |] eqn:He.
  - rewrite list_elem_of_fmap. split.
    + intros (q & -> & Hq). apply elem_of_bool_filter in Hq as [Hq Htag].
      apply descendants_elem_of in Hq as [Hne [n Hn]].
      exists q, n. rewrite node_at_app, He. simpl. rewrite Hn in Htag. done.
    + intros (q & n & -> & Hne & Hn & Htag). exists q. split; [done |].
      rewrite node_at_app, He in Hn. simpl in Hn.
      apply elem_of_bool_filter. rewrite Hn. split; [| done].
      apply descendants_elem_of. by rewrite Hn.
  - split; [by intros ?%elem_of_nil |].
    intros (q & n & -> & _ & Hn & _). rewrite node_at_app, He in Hn. done.
Qed.

(** The checkboxes of a soup are its input tags of type checkbox. *)
Lemma checkboxes_elem_of soup cb :
  cb ∈ checkboxes soup ↔
  cb ≠ [] ∧ ∃ a cs, node_at soup cb = Some (Tag "input" a cs) ∧
                    a !! "type"%string = Some "checkbox"%string.
Proof.
  unfold checkboxes. rewrite find_all_elem_of. split.
  - intros (q & n & -> & Hne & Hn & Htag). split; [done |].
    destruct n as [t a cs | s]; [| done]. simpl in Htag.
    apply andb_true_iff in Htag as [Ht Ha]. apply bool_decide_eq_true in Ht as ->.
    rewrite andb_true_r in Ha. apply bool_decide_eq_true in Ha. by exists a, cs.
  - intros (Hne & a & cs & Hn & Ha). exists cb, (Tag "input" a cs).
    repeat split; [done .. |]. simpl. rewrite andb_true_r.
    rewrite !bool_decide_eq_true_2; done.
Qed.

Lemma head_filter_downwards {A} (f : A → bool) (h : nat → A) n x :
  head (List.filter f (h <$> reverse (seq 0 n))) = Some x →
  ∃ k, (k < n)%nat ∧ x = h k ∧ f (h k) = true ∧
       ∀ k', (k < k' < n)%nat → f (h k') = false.
Proof.
  induction n as [| n IH]; [done |].
  rewrite seq_S, reverse_snoc. simpl. destruct (f (h n)) eqn:Hn; simpl.
  - intros [= <-]. exists n. repeat split; [lia | done | lia].
  - intros (k & Hk & -> & Hfk & Hnear)%IH. exists k. repeat split; [lia | done |].
    intros k' Hk'. destruct (decide (k' = n)) as [-> | ?]; [done |]. apply Hnear. lia.
Qed.

Lemma head_filter_none {A} (f : A → bool) (h : nat → A) n :
  head (List.filter f (h <$> reverse (seq 0 n))) = None ↔
  ∀ k, (k < n)%nat → f (h k) = false.
Proof.
  induction n as [| n IH]; [split; [lia | done] |].
  rewrite seq_S, reverse_snoc. simpl. destruct (f (h n)) eqn:Hn; simpl.
  - split; [done |]. intros H. rewrite H in Hn by lia. done.
  - rewrite IH. split; intros H k Hk.
    + destruct (decide (k = n)) as [-> | ?]; [done |]. apply H. lia.
    + apply H. lia.
Qed.

(** [find_parent] gives the nearest proper ancestor that is a tag of the
    wanted name. *)
Lemma find_parent_Some soup p tag q :
  find_parent soup p tag = Some q →
  ∃ k, (k < length p)%nat ∧ q = take k p ∧
       (∃ a cs, node_at soup q = Some (Tag tag a cs)) ∧
       ∀ k' a cs, (k < k' < length p)%nat → node_at soup (take k' p) ≠ Some (Tag tag a cs).
Proof.
  unfold find_parent, parents.
  intros (k & Hk & -> & Htag & Hnear)%head_filter_downwards.
  exists k. repeat split; [done | |].
  - destruct (node_at soup (take k p)) as [[t a cs | s] |]; simpl in Htag; try done.
    rewrite andb_true_r in Htag. apply bool_decide_eq_true in Htag as ->. eauto.
  - intros k' a cs Hk' Hn. specialize (Hnear k' Hk'). rewrite Hn in Hnear.
    simpl in Hnear. by rewrite bool_decide_eq_true_2 in Hnear.
Qed.

Lemma find_parent_None soup p tag :
  find_parent soup p tag = None ↔
  ∀ k a cs, (k < length p)%nat → node_at soup (take k p) ≠ Some (Tag tag a cs).
Proof.
  unfold find_parent, parents. rewrite head_filter_none. split.
  - intros H k a cs Hk Hn. specialize (H k Hk). rewrite Hn in H. simpl in H.
    by rewrite bool_decide_eq_true_2 in H.
  - intros H k Hk.
    destruct (node_at soup (take k p)) as [[t a cs | s] |] eqn:Hn; simpl; try done.
    rewrite andb_true_r. apply bool_decide_eq_false. intros ->. by eapply H.
Qed.

(** The pattern of the checkbox names: outlet and one or more decimals. *)
Lemma rx_checkbox_fullmatch_Some s digits :
  rx_checkbox_fullmatch s = Some digits ↔
  s = ("outlet" +:+ digits)%string ∧ decimal_token digits = true.
Proof.
  unfold rx_checkbox_fullmatch, decimal_token. split.
  - destruct (PyStr.startswith "outlet" s) eqn:Hpre; [| done].
    apply startswith_split in Hpre.
    change (String.length "outlet") with 6%nat in Hpre.
    destruct (nonempty (PyStr.drop_chars 6 s)) eqn:Hne; [| done].
    destruct (PyStr.all_chars PyStr.is_decimal (PyStr.drop_chars 6 s)) eqn:Hall;
      [| done].
    cbn [andb]. intros Hd.
    assert (digits = PyStr.drop_chars 6 s) as -> by congruence.
    by rewrite Hne, Hall.
  - intros [-> Hd].
    change (PyStr.drop_chars 6 ("outlet" +:+ digits)) with digits.
    change (PyStr.startswith "outlet" ("outlet" +:+ digits)) with true.
    simpl. apply andb_true_iff in Hd as [-> ->]. done.
Qed.

(** A cell that holds a single string gives its trimmed text. *)
Lemma get_text_strip_single n s :
  all_strings n = [s] → get_text_strip n = trimmed_text n.
Proof.
  unfold get_text_strip, trimmed_text. intros ->.
  change (concat_strings [s]) with (s +:+ EmptyString). rewrite append_empty_r.
  change (PyStr.strip <$> [s]) with [PyStr.strip s].
  destruct (PyStr.strip s) as [| c r]; [done |].
  change (String c r +:+ EmptyString = String c r). apply append_empty_r.
Qed.

End Tree.

(** ** The resolver *)

Section Resolver.
Import PyStr.

Lemma existsb_number num (table : list OutletRecord) :
  existsb (λ r, num =? number r) table = bool_decide (num ∈ number <$> table).
Proof.
  induction table as [| r table IH]; simpl; [done |].
  rewrite IH. destruct (Z.eqb_spec num (number r)) as [-> | Hne]; simpl.
  - symmetry. apply bool_decide_eq_true. left.
  - apply bool_decide_ext. rewrite elem_of_cons. intuition.
Qed.

Lemma name_matches_spec arg (r : OutletRecord) :
  name_matches arg r = true ↔ lower (name r) = lower arg.
Proof. unfold name_matches. apply bool_decide_eq_true. Qed.

(** A matching name has the length of the token: no proper prefix and no
    longer name matches. *)
Lemma name_matches_length arg (r : OutletRecord) :
  name_matches arg r = true → String.length (name r) = String.length arg.
Proof.
  rewrite name_matches_spec. intros H.
  by rewrite <- (lower_length (name r)), H, lower_length.
Qed.

(** The name path: taken exactly when [isdigit] fails. *)
Lemma resolve_outlet_by_name arg (table : list OutletRecord) :
  isdigit arg = false →
  resolve_outlet arg table =
    match number <$> List.filter (name_matches arg) table with
    | [] => Raise (ValueError (NoOutletNamed arg))
    | [m] => Ok m
    | ms => Raise (ValueError (MultipleOutletsNamed arg ms))
    end.
Proof.
  intros H. unfold resolve_outlet. rewrite H.
  by destruct (number <$> List.filter (name_matches arg) table) as [| ? [| ? ?]].
Qed.

(** The numeric path is also taken by tokens with a superscript digit,
    where it ends in the [ValueError] of [int]. *)
Lemma resolve_outlet_superscript arg (table : list OutletRecord) :
  isdigit arg = true → decimal_token arg = false →
  resolve_outlet arg table = Raise (ValueError (InvalidLiteralForInt arg)).
Proof.
  intros Hdig Hdec. unfold resolve_outlet.
  by rewrite Hdig, (int_superscript arg Hdig Hdec).
Qed.

(** C2.  A token made of one or more decimal digits is read as the number
    it denotes; the result is that number when some record of the
    directory carries it and the [ValueError] naming the number otherwise.
    The names of the directory play no part: two directories with the
    same numbers give the same result. *)
Theorem resolve_outlet_numeric arg (table : list OutletRecord) :
  decimal_token arg = true →
  int arg = Ok (decimal_value arg) ∧
  0 ≤ decimal_value arg ∧
  resolve_outlet arg table =
    (if bool_decide (decimal_value arg ∈ number <$> table)
     then Ok (decimal_value arg)
     else Raise (ValueError (OutletNumberNotPresent (decimal_value arg)))) ∧
  (∀ table' : list OutletRecord,
     number <$> table' = number <$> table →
     resolve_outlet arg table' = resolve_outlet arg table).
Proof.
  intros Hdec.
  assert (∀ t : list OutletRecord, resolve_outlet arg t =
    (if bool_decide (decimal_value arg ∈ number <$> t)
     then Ok (decimal_value arg)
     else Raise (ValueError (OutletNumberNotPresent (decimal_value arg))))) as Hres.
  { intros t. unfold resolve_outlet.
    rewrite (decimal_token_isdigit arg Hdec), (int_decimal_token arg Hdec).
    simpl. by rewrite existsb_number. }
  split; [by apply int_decimal_token |].
  split.
  { unfold decimal_token in Hdec. apply andb_true_iff in Hdec as [_ Hall].
    by apply decimal_value_from_nonneg. }
  split; [apply Hres |].
  intros table' Hsame. by rewrite !Hres, Hsame.
Qed.

Lemma resolve_outlet_numeric_witness :
  decimal_token "2" = true ∧
  resolve_outlet "2" [(1, "2", "ON")]%string =
    Raise (ValueError (OutletNumberNotPresent 2)).
Proof.
  split; [reflexivity |].
  destruct (resolve_outlet_numeric "2" [(1, "2", "ON")]%string eq_refl)
    as (_ & _ & H & _).
  exact H.
Defined.

(** C1, at the token U+00B2.  The token is not made of decimal digits and
    equals the name of outlet 1, the only record; [resolve_outlet] takes
    the numeric path all the same and ends in the [ValueError] of [int]
    instead of returning 1. *)
Theorem resolve_outlet_superscript_two :
  decimal_token superscript_two = false ∧
  number <$> List.filter (name_matches superscript_two)
               [(1, superscript_two, "ON"%string)] = [1] ∧
  resolve_outlet superscript_two [(1, superscript_two, "ON"%string)] =
    Raise (ValueError (InvalidLiteralForInt superscript_two)) ∧
  resolve_outlet superscript_two [] =
    Raise (ValueError (InvalidLiteralForInt superscript_two)).
Proof. repeat split; reflexivity. Qed.

End Resolver.

(** ** The actuator's query and the fetcher's URL *)

Section Urls.
Variable http_get : string → Auth → Z → result string.
Variable browser_apply : string → Auth → Z → result unit.

(** C7.  [set_outlet] hands the browser the control URL whose query is
    outlet<N>=1&op=<code>&submit=Apply, with the code 0 for ON and the
    code 1 for OFF; N is written as the decimal numeral that [int] reads
    back as N. *)
Theorem set_outlet_query_wire_code (base_url : string) (outlet : Z)
    (op : OutletOperation) (auth : Auth) (timeout : Z) :
  set_outlet_query outlet op =
    "outlet" +:+ PyStr.str outlet +:+ "=1&op=" +:+
    (match op with ON => "0" | OFF => "1" end) +:+ "&submit=Apply" ∧
  set_outlet browser_apply base_url outlet op auth timeout =
    browser_apply
      (base_url +:+ "/control_outlet.htm?" +:+
       "outlet" +:+ PyStr.str outlet +:+ "=1&op=" +:+
       (match op with ON => "0" | OFF => "1" end) +:+ "&submit=Apply")
      auth (timeout * 1000) ∧
  value ON = "0"%string ∧ value OFF = "1"%string ∧
  PyStr.int (PyStr.str outlet) = Ok outlet.
Proof. split_and!; [by destruct op .. | apply int_str]. Qed.

Lemma lstrip_slashes k p :
  starts_with_slash p = false → PyStr.lstrip_by is_slash (slashes k +:+ p) = p.
Proof.
  intros Hp. induction k as [| k IH]; [| exact IH].
  destruct p as [| c r]; [done |]. by apply lstrip_by_head.
Qed.

(** Every path is a run of slashes followed by what [lstrip] keeps. *)
Lemma lstrip_slashes_decompose path :
  ∃ k, path = slashes k +:+ PyStr.lstrip_by is_slash path ∧
       starts_with_slash (PyStr.lstrip_by is_slash path) = false.
Proof.
  induction path as [| c r (k & Hk & Hs)].
  - by exists 0%nat.
  - simpl. destruct (is_slash c) eqn:Hc.
    + exists (S k). split; [| done].
      change (String c r = String "/" (slashes k +:+ PyStr.lstrip_by is_slash r)).
      f_equal; [| exact Hk].
      unfold is_slash in Hc. apply is_code_spec in Hc.
      rewrite <- (ascii_N_embedding c). unfold PyStr.ord in Hc. by rewrite Hc.
    + by exists 0%nat.
Qed.

(** C8, as the code has it.  [fetch] requests base_url, a slash, and the
    path without any of its leading slashes: a path written with no, one
    or more leading slashes gives the same URL. *)
Theorem fetch_url_leading_slashes (base_url p : string) (k : nat)
    (auth : Auth) (timeout : Z) :
  starts_with_slash p = false →
  fetch_url base_url (slashes k +:+ p) = base_url +:+ "/" +:+ p ∧
  fetch http_get base_url (slashes k +:+ p) auth timeout =
    http_get (base_url +:+ "/" +:+ p) auth timeout.
Proof.
  intros Hp. unfold fetch, fetch_url. by rewrite (lstrip_slashes k p Hp).
Qed.

(** With at most one leading slash the URL is the one obtained by stripping
    a single slash. *)
Lemma fetch_url_one_slash (base_url p : string) (k : nat) :
  starts_with_slash p = false → (k ≤ 1)%nat →
  fetch_url base_url (slashes k +:+ p) = fetch_url_spec base_url (slashes k +:+ p).
Proof.
  intros Hp Hk. unfold fetch_url, fetch_url_spec. rewrite (lstrip_slashes k p Hp).
  do 2 f_equal. destruct k as [| [| k]]; [| done | lia].
  destruct p as [| c r]; [done |]. simpl in Hp.
  change (slashes 0 +:+ String c r) with (String c r). simpl. by rewrite Hp.
Qed.

End Urls.

Lemma fetch_url_leading_slashes_witness :
  fetch_url "http://pdu" "//status.xml" = "http://pdu/status.xml"%string.
Proof.
  exact (proj1 (fetch_url_leading_slashes (λ _ _ _, Raise RequestException)
                  "http://pdu" "status.xml" 2 (EmptyString, EmptyString) 5 eq_refl)).
Defined.

(** With two leading slashes the URL of the code is not the one obtained by
    stripping a single slash. *)
Lemma fetch_url_two_slashes :
  fetch_url "http://pdu" "//status.xml" ≠ fetch_url_spec "http://pdu" "//status.xml".
Proof. discriminate. Qed.

(** ** The directory builder *)

Section Directory.
Variable http_get : string → Auth → Z → result string.
Variable BeautifulSoup : string → Node.
Variable ET_fromstring : string → option Element.

Lemma sorted_keys_elem_of (names : gmap Z string) n :
  n ∈ sorted_keys names ↔ is_Some (names !! n).
Proof.
  unfold sorted_keys. rewrite merge_sort_Permutation, list_elem_of_fmap. split.
  - intros ([k v] & -> & Hkv). apply elem_of_map_to_list in Hkv. by exists v.
  - intros [v Hv]. exists (n, v). split; [done |]. by apply elem_of_map_to_list.
Qed.

Lemma sorted_keys_NoDup (names : gmap Z string) : NoDup (sorted_keys names).
Proof.
  unfold sorted_keys. rewrite merge_sort_Permutation. apply NoDup_fst_map_to_list.
Qed.

Lemma sorted_keys_length (names : gmap Z string) :
  length (sorted_keys names) = size names.
Proof.
  unfold sorted_keys.
  by rewrite merge_sort_Permutation, length_fmap, length_map_to_list.
Qed.

Lemma sorted_keys_le (names : gmap Z string) :
  StronglySorted Z.le (sorted_keys names).
Proof. unfold sorted_keys. apply (StronglySorted_merge_sort Z.le). Qed.

Lemma StronglySorted_le_lt (l : list Z) :
  StronglySorted Z.le l → NoDup l → StronglySorted Z.lt l.
Proof.
  induction 1 as [| x l Hl IH Hx]; intros Hnd; [constructor |].
  apply NoDup_cons in Hnd as [Hnotin Hnd]. constructor; [by apply IH |].
  rewrite Forall_forall in Hx |- *. intros y Hy.
  assert (x ≠ y) by (intros ->; done). specialize (Hx y Hy). lia.
Qed.

Lemma sorted_keys_lt (names : gmap Z string) :
  StronglySorted Z.lt (sorted_keys names).
Proof. apply StronglySorted_le_lt; [apply sorted_keys_le | apply sorted_keys_NoDup]. Qed.

(** The subscript [names[n]] of the comprehension never raises, because
    [n] ranges over the keys of [names]. *)
Lemma outlet_rows_keys (names stats : gmap Z string) (keys : list Z) :
  (∀ n, n ∈ keys → is_Some (names !! n)) →
  outlet_rows names stats keys = Ok (row_of names stats <$> keys).
Proof.
  induction keys as [| n keys IH]; intros Hkeys; simpl; [done |].
  destruct (Hkeys n) as [nm Hnm]; [left |].
  rewrite Hnm. simpl. rewrite IH by (intros; apply Hkeys; by right).
  simpl. unfold row_of at 2. by rewrite Hnm.
Qed.

Lemma directory_rows (names stats : gmap Z string) :
  directory names stats = Ok (row_of names stats <$> sorted_keys names).
Proof.
  apply outlet_rows_keys. intros n. by rewrite sorted_keys_elem_of.
Qed.

Lemma number_row_of (names stats : gmap Z string) (keys : list Z) :
  number <$> (row_of names stats <$> keys) = keys.
Proof. rewrite <- list_fmap_compose. apply list_fmap_id. Qed.

(** C3.  When both documents are fetched and parsed, [list_outlets]
    returns a directory that is strictly ascending by number, has exactly
    one record for each key of the name mapping and none for any other
    number, and gives each record the name of the name mapping and the
    state of the status mapping, or (unknown) when the status mapping has
    no entry for the number. *)
Theorem list_outlets_directory (base_url : string) (auth : Auth) (timeout : Z)
    (html xml_text : string) (names stats : gmap Z string) :
  fetch http_get base_url "control_outlet.htm" auth timeout = Ok html →
  parse_names BeautifulSoup html = Ok names →
  fetch http_get base_url "status.xml" auth timeout = Ok xml_text →
  parse_status ET_fromstring xml_text = Ok stats →
  ∃ rows : list OutletRecord,
    list_outlets http_get BeautifulSoup ET_fromstring base_url auth timeout = Ok rows ∧
    StronglySorted Z.lt (number <$> rows) ∧
    NoDup (number <$> rows) ∧
    length rows = size names ∧
    (∀ n, n ∈ number <$> rows ↔ is_Some (names !! n)) ∧
    (∀ r, r ∈ rows → names !! number r = Some (name r)) ∧
    (∀ r, r ∈ rows → state r = default "(unknown)"%string (stats !! number r)) ∧
    (∀ r, r ∈ rows → stats !! number r = None → state r = "(unknown)"%string).
Proof.
  intros Hhtml Hnames Hxml Hstats.
  exists (row_of names stats <$> sorted_keys names).
  assert (∀ r, r ∈ row_of names stats <$> sorted_keys names →
            names !! number r = Some (name r) ∧
            state r = default "(unknown)"%string (stats !! number r)) as Hrow.
  { intros r (n & -> & Hn)%list_elem_of_fmap.
    apply sorted_keys_elem_of in Hn as [nm Hnm].
    unfold row_of, number, name, state. simpl. by rewrite Hnm. }
  split.
  { unfold list_outlets. rewrite Hhtml. simpl. rewrite Hnames. simpl.
    rewrite Hxml. simpl. rewrite Hstats. simpl. apply directory_rows. }
  rewrite number_row_of, length_fmap.
  split; [apply sorted_keys_lt |].
  split; [apply sorted_keys_NoDup |].
  split; [apply sorted_keys_length |].
  split; [apply sorted_keys_elem_of |].
  split; [intros r Hr; by apply Hrow |].
  split; [intros r Hr; by apply Hrow |].
  intros r Hr Hnone. destruct (Hrow r Hr) as [_ ->]. by rewrite Hnone.
Qed.

End Directory.

Lemma list_outlets_directory_witness :
  ∃ rows : list OutletRecord,
    list_outlets sample_http_get sample_html_parser sample_fromstring
      "http://pdu" ("admin", "secret")%string 5 = Ok rows ∧
    rows = [(1, "Fan", "(unknown)"); (3, "Lamp", "ON")]%string.
Proof.
  destruct (list_outlets_directory sample_http_get sample_html_parser
              sample_fromstring "http://pdu" ("admin", "secret")%string 5
              _ _ {[ 3 := "Lamp"; 1 := "Fan" ]}%string {[ 3 := "ON"; 7 := "OFF" ]}%string
              eq_refl eq_refl eq_refl eq_refl) as (rows & Hrows & _).
  exists rows. split; [exact Hrows |].
  vm_compute in Hrows. by injection Hrows as <-.
Defined.

(** ** Capital forms within range *)

Section Capitals.
Import PyStr.








End Capitals.

(** ** The status parser *)

Section StatusParser.
Import PyStr.
Variable ET_fromstring : string → option Element.

Lemma status_entry_Some e n v :
  status_entry e = Some (n, v) ↔
  startswith "outletStat" (elem_tag e) = true ∧
  int (strip_prefix "outletStat" (elem_tag e)) = Ok n ∧
  ∃ t, elem_text e = Some t ∧ v = upper (strip t).
Proof.
  unfold status_entry. destruct (startswith "outletStat" (elem_tag e)).
  - destruct (int (strip_prefix "outletStat" (elem_tag e))) as [k |].
    + destruct (elem_text e) as [t |]; split.
      * intros [= <- <-]. eauto.
      * intros (_ & [= <-] & t' & [= <-] & ->). done.
      * done.
      * intros (_ & _ & t' & Ht & _). done.
    + split; [done |]. intros (_ & Hk & _). done.
  - split; [done |]. intros (Hpre & _). done.
Qed.

Lemma parse_status_step_well_formed states e :
  well_formed_status e →
  parse_status_step states e = Ok (assign_all (omap status_entry [e]) states).
Proof.
  intros Hwf. unfold parse_status_step.
  change (omap status_entry [e])
    with (match status_entry e with Some kv => [kv] | None => [] end).
  destruct (startswith "outletStat" (elem_tag e)) eqn:Hpre.
  - destruct (Hwf Hpre) as [[n Hn] [t Ht]].
    rewrite (remove_all_strip_prefix _ n Hpre Hn), Hn, Ht.
    assert (status_entry e = Some (n, upper (strip t))) as ->; [| done].
    apply status_entry_Some. eauto.
  - assert (status_entry e = None) as ->; [| done].
    unfold status_entry. by rewrite Hpre.
Qed.

Lemma parse_status_loop_app l1 l2 states :
  parse_status_loop (l1 ++ l2) states =
    states' ← parse_status_loop l1 states; parse_status_loop l2 states'.
Proof.
  revert states. induction l1 as [| e l1 IH]; intros states; simpl; [done |].
  destruct (parse_status_step states e); simpl; [apply IH | done].
Qed.

Lemma parse_status_loop_well_formed elems states :
  Forall well_formed_status elems →
  parse_status_loop elems states = Ok (assign_all (omap status_entry elems) states).
Proof.
  intros Hwf. revert states. induction Hwf as [| e elems He _ IH]; intros states;
    [done |].
  cbn [parse_status_loop]. rewrite (parse_status_step_well_formed _ _ He).
  cbn [mbind result_bind]. rewrite IH, <- assign_all_app. do 2 f_equal.
  symmetry. apply (omap_app status_entry [e] elems).
Qed.


(** A document that is not well-formed XML makes [parse_status] fail. *)
Lemma parse_status_not_xml xml_text :
  ET_fromstring xml_text = None →
  parse_status ET_fromstring xml_text = Raise ParseError.
Proof. unfold parse_status. by intros ->. Qed.

Lemma parse_status_loop_raises pre e post states :
  (∀ states', raises (parse_status_step states' e)) →
  raises (parse_status_loop (pre ++ e :: post) states).
Proof.
  intros He. rewrite parse_status_loop_app.
  destruct (parse_status_loop pre states) as [states' | err]; simpl; [| by eexists].
  destruct (He states') as [err ->]. by eexists.
Qed.

(** A prefixed tag that is no integer literal once every occurrence of the
    prefix is removed makes [parse_status] fail; the element is not
    skipped. *)
Lemma parse_status_malformed_tag xml_text root pre e post :
  ET_fromstring xml_text = Some root →
  elem_children root = pre ++ e :: post →
  startswith "outletStat" (elem_tag e) = true →
  raises (int (remove_all "outletStat" (elem_tag e))) →
  raises (parse_status ET_fromstring xml_text).
Proof.
  intros Hroot Hsplit Hpre [err Herr]. unfold parse_status. rewrite Hroot, Hsplit.
  apply parse_status_loop_raises. intros states'. unfold parse_status_step.
  rewrite Hpre, Herr. by eexists.
Qed.

(** C9.  A top-level element with a prefixed tag, an integer after the
    prefix and no text makes [parse_status] fail instead of returning a
    mapping; when the elements before it are well formed the failure is
    the [AttributeError] of calling [strip] on the absent text. *)
Theorem parse_status_empty_element (xml_text : string) (root : Element)
    (pre post : list Element) (e : Element) (n : Z) :
  ET_fromstring xml_text = Some root →
  elem_children root = pre ++ e :: post →
  startswith "outletStat" (elem_tag e) = true →
  int (strip_prefix "outletStat" (elem_tag e)) = Ok n →
  elem_text e = None →
  raises (parse_status ET_fromstring xml_text) ∧
  ¬ returns (parse_status ET_fromstring xml_text) ∧
  (Forall well_formed_status pre →
   parse_status ET_fromstring xml_text = Raise AttributeError).
Proof.
  intros Hroot Hsplit Hpre Hn Htext.
  assert (∀ states', parse_status_step states' e = Raise AttributeError) as Hstep.
  { intros states'. unfold parse_status_step.
    rewrite Hpre, (remove_all_strip_prefix _ n Hpre Hn), Hn, Htext. done. }
  assert (raises (parse_status ET_fromstring xml_text)) as Hraises.
  { unfold parse_status. rewrite Hroot, Hsplit. apply parse_status_loop_raises.
    intros states'. rewrite Hstep. by eexists. }
  split; [done |]. split.
  - destruct Hraises as [err Herr]. intros [states Hstates]. congruence.
  - intros Hwf. unfold parse_status. rewrite Hroot, Hsplit, parse_status_loop_app.
    rewrite (parse_status_loop_well_formed _ _ Hwf). simpl. by rewrite Hstep.
Qed.

End StatusParser.



(** C6, at a tag that repeats the prefix.  What follows the prefix in the
    tag outletStat1outletStat2 is no integer, yet [parse_status] does not
    fail: it files the state under the number 12. *)
Theorem parse_status_repeated_prefix :
  PyStr.startswith "outletStat" "outletStat1outletStat2" = true ∧
  PyStr.int (strip_prefix "outletStat" "outletStat1outletStat2") =
    Raise (ValueError (InvalidLiteralForInt "1outletStat2")) ∧
  parse_status sample_fromstring
    "<response><outletStat1outletStat2>on</outletStat1outletStat2></response>"
  = Ok {[ 12 := "ON"%string ]}.
Proof. repeat split; reflexivity. Qed.

Lemma parse_status_empty_element_witness :
  parse_status sample_fromstring "<response><outletStat1/></response>"
  = Raise AttributeError.
Proof.
  exact (proj2 (proj2 (parse_status_empty_element sample_fromstring
    "<response><outletStat1/></response>" empty_text_status [] []
    (Elem "outletStat1" None []) 1 eq_refl eq_refl eq_refl eq_refl eq_refl))
    (List.Forall_nil _)).
Defined.

(** ** The name parser *)

Section NameParser.
Variable BeautifulSoup : string → Node.

Lemma names_entry_Some soup cb n v :
  names_entry soup cb = Some (n, v) ↔
  ∃ digits tr td cell,
    rx_checkbox_fullmatch (get_attr soup cb "name" EmptyString) = Some digits ∧
    n = decimal_value digits ∧
    find_parent soup cb "tr" = Some tr ∧
    head (find_all soup tr "td" []) = Some td ∧
    node_at soup td = Some cell ∧
    v = get_text_strip cell.
Proof.
  unfold names_entry. split.
  - destruct (rx_checkbox_fullmatch (get_attr soup cb "name" EmptyString))
      as [digits |] eqn:Hrx; [| done].
    destruct (find_parent soup cb "tr") as [tr |] eqn:Htr; [| done].
    cbn [mbind option_bind].
    destruct (head (find_all soup tr "td" [])) as [td |] eqn:Htd; [| done].
    cbn [mbind option_bind].
    destruct (node_at soup td) as [cell |] eqn:Hcell; [| done].
    cbn [mbind option_bind].
    intros Hnv. exists digits, tr, td, cell.
    assert (n = decimal_value digits ∧ v = get_text_strip cell) as [-> ->]
      by (split; congruence).
    done.
  - intros (digits & tr & td & cell & -> & -> & -> & Htd & Hcell & ->).
    cbn [mbind option_bind]. rewrite Htd. cbn [mbind option_bind]. by rewrite Hcell.
Qed.

Lemma names_entry_unmatched soup cb :
  rx_checkbox_fullmatch (get_attr soup cb "name" EmptyString) = None →
  names_entry soup cb = None.
Proof. unfold names_entry. by intros ->. Qed.

Lemma head_find_all_node soup tr tag want td :
  head (find_all soup tr tag want) = Some td → is_Some (node_at soup td).
Proof.
  intros Hhead. assert (td ∈ find_all soup tr tag want) as Hin.
  { destruct (find_all soup tr tag want); [done |]. injection Hhead as ->. left. }
  apply find_all_elem_of in Hin as (q & n & _ & _ & Hn & _). by exists n.
Qed.

Lemma parse_names_step_in_row soup names cb :
  in_row soup cb →
  parse_names_step soup names cb = Ok (assign_all (omap (names_entry soup) [cb]) names).
Proof.
  intros Hrow. unfold parse_names_step.
  change (omap (names_entry soup) [cb])
    with (match names_entry soup cb with Some kv => [kv] | None => [] end).
  destruct (rx_checkbox_fullmatch (get_attr soup cb "name" EmptyString))
    as [digits |] eqn:Hrx.
  - destruct Hrow as (tr & td & Htr & Htd); [by rewrite Hrx |].
    pose proof Hrx as Hrx'. apply rx_checkbox_fullmatch_Some in Hrx' as [_ Hdec].
    rewrite (int_decimal_token digits Hdec), Htr.
    destruct (head_find_all_node _ _ _ _ _ Htd) as [cell Hcell].
    assert (names_entry soup cb = Some (decimal_value digits, get_text_strip cell))
      as -> by (apply names_entry_Some; by exists digits, tr, td, cell).
    destruct (find_all soup tr "td" []) as [| td' tds]; [done |].
    injection Htd as ->. cbn [mbind result_bind]. by rewrite Hcell.
  - by rewrite (names_entry_unmatched _ _ Hrx).
Qed.

Lemma parse_names_loop_app soup l1 l2 names :
  parse_names_loop soup (l1 ++ l2) names =
    names' ← parse_names_loop soup l1 names; parse_names_loop soup l2 names'.
Proof.
  revert names. induction l1 as [| cb l1 IH]; intros names; simpl; [done |].
  destruct (parse_names_step soup names cb); simpl; [apply IH | done].
Qed.

Lemma parse_names_loop_in_row soup cbs names :
  Forall (in_row soup) cbs →
  parse_names_loop soup cbs names = Ok (assign_all (omap (names_entry soup) cbs) names).
Proof.
  intros Hrows. revert names. induction Hrows as [| cb cbs Hcb _ IH]; intros names;
    [done |].
  cbn [parse_names_loop]. rewrite (parse_names_step_in_row _ _ _ Hcb).
  cbn [mbind result_bind]. rewrite IH, <- assign_all_app. do 2 f_equal.
  symmetry. apply (omap_app (names_entry soup) [cb] cbs).
Qed.

(** C4, as the code has it.  On a page where every checkbox named outlet
    and a number has a nearest enclosing tr and that tr holds a td,
    [parse_names] returns the
    mapping obtained by assigning, in document order, to the number of
    each such checkbox the text of the first td of its nearest enclosing
    tr, where the text is what [get_text] with [strip] gives: the keys are
    exactly the numbers of those checkboxes, each value comes from a
    checkbox with that number, the last such checkbox decides, and a
    checkbox with another name gives no entry.  The text is the trimmed
    text of the cell when the cell holds a single string. *)
Theorem parse_names_mapping (html : string) :
  Forall (in_row (BeautifulSoup html)) (checkboxes (BeautifulSoup html)) →
  ∃ names : gmap Z string,
    parse_names BeautifulSoup html = Ok names ∧
    names = assign_all (omap (names_entry (BeautifulSoup html))
                          (checkboxes (BeautifulSoup html))) ∅ ∧
    (∀ n, is_Some (names !! n) ↔
          ∃ cb digits, cb ∈ checkboxes (BeautifulSoup html) ∧
            get_attr (BeautifulSoup html) cb "name" EmptyString
              = ("outlet" +:+ digits)%string ∧
            decimal_token digits = true ∧ n = decimal_value digits) ∧
    (∀ n v, names !! n = Some v →
          ∃ cb digits tr td cell, cb ∈ checkboxes (BeautifulSoup html) ∧
            get_attr (BeautifulSoup html) cb "name" EmptyString
              = ("outlet" +:+ digits)%string ∧
            decimal_token digits = true ∧ n = decimal_value digits ∧
            find_parent (BeautifulSoup html) cb "tr" = Some tr ∧
            head (find_all (BeautifulSoup html) tr "td" []) = Some td ∧
            node_at (BeautifulSoup html) td = Some cell ∧
            v = get_text_strip cell ∧
            (∀ s, all_strings cell = [s] → v = trimmed_text cell)) ∧
    (∀ pre cb post n v,
          checkboxes (BeautifulSoup html) = pre ++ cb :: post →
          names_entry (BeautifulSoup html) cb = Some (n, v) →
          (∀ cb' w, cb' ∈ post → names_entry (BeautifulSoup html) cb' ≠ Some (n, w)) →
          names !! n = Some v) ∧
    (∀ cb, rx_checkbox_fullmatch (get_attr (BeautifulSoup html) cb "name" EmptyString)
             = None →
           names_entry (BeautifulSoup html) cb = None).
Proof.
  set (soup := BeautifulSoup html). intros Hrows. eexists. split.
  { unfold parse_names. fold soup. by apply parse_names_loop_in_row. }
  split; [done |].
  assert (∀ n v, assign_all (omap (names_entry soup) (checkboxes soup)) ∅ !! n = Some v →
            ∃ cb, cb ∈ checkboxes soup ∧ names_entry soup cb = Some (n, v)) as Hval.
  { intros n v [Hin | Hempty]%assign_all_lookup; [| by rewrite lookup_empty in Hempty].
    apply list_elem_of_omap in Hin as (cb & Hcb & Hentry). by exists cb. }
  split; [| split; [| split]].
  - intros n. split.
    + intros [v (cb & Hcb & Hentry)%Hval].
      apply names_entry_Some in Hentry as (digits & tr & td & cell & Hrx & -> & _).
      apply rx_checkbox_fullmatch_Some in Hrx as [Hname Hdec]. by exists cb, digits.
    + intros (cb & digits & Hcb & Hname & Hdec & ->).
      assert (rx_checkbox_fullmatch (get_attr soup cb "name" EmptyString) = Some digits)
        as Hrx by by apply rx_checkbox_fullmatch_Some.
      rewrite Forall_forall in Hrows.
      destruct (Hrows cb Hcb) as (tr & td & Htr & Htd); [by rewrite Hrx |].
      destruct (head_find_all_node _ _ _ _ _ Htd) as [cell Hcell].
      apply assign_all_key, list_elem_of_fmap.
      exists (decimal_value digits, get_text_strip cell). split; [done |].
      apply list_elem_of_omap. exists cb. split; [done |].
      apply names_entry_Some. by exists digits, tr, td, cell.
  - intros n v (cb & Hcb & Hentry)%Hval.
    apply names_entry_Some in Hentry
      as (digits & tr & td & cell & Hrx & -> & Htr & Htd & Hcell & ->).
    apply rx_checkbox_fullmatch_Some in Hrx as [Hname Hdec].
    exists cb, digits, tr, td, cell. repeat split; try done.
    intros s Hs. by apply (get_text_strip_single cell s).
  - intros pre cb post n v Hsplit Hentry Hpost. rewrite Hsplit.
    change (cb :: post) with ([cb] ++ post). rewrite !omap_app.
    change (omap (names_entry soup) [cb])
      with (match names_entry soup cb with Some kv => [kv] | None => [] end).
    rewrite Hentry. apply assign_all_last.
    intros ([k w] & Hk & Hin)%list_elem_of_fmap. simpl in Hk. subst k.
    apply list_elem_of_omap in Hin as (cb' & Hcb' & Hentry'). by apply (Hpost cb' w).
  - apply names_entry_unmatched.
Qed.

Lemma parse_names_loop_raises soup pre cb post names :
  (∀ names', raises (parse_names_step soup names' cb)) →
  raises (parse_names_loop soup (pre ++ cb :: post) names).
Proof.
  intros Hcb. rewrite parse_names_loop_app.
  destruct (parse_names_loop soup pre names) as [names' | err]; simpl; [| by eexists].
  destruct (Hcb names') as [err ->]. by eexists.
Qed.

(** C10.  A checkbox named outlet and a number that has no enclosing tr
    makes [parse_names] fail instead of skipping the checkbox or returning
    the entries gathered so far; when the checkboxes before it lie in
    rows the failure is the [AttributeError] of calling [find_all] on the
    absent row. *)
Theorem parse_names_no_row (html : string) (pre post : list path) (cb : path)
    (digits : string) :
  checkboxes (BeautifulSoup html) = pre ++ cb :: post →
  get_attr (BeautifulSoup html) cb "name" EmptyString = ("outlet" +:+ digits)%string →
  decimal_token digits = true →
  find_parent (BeautifulSoup html) cb "tr" = None →
  raises (parse_names BeautifulSoup html) ∧
  ¬ returns (parse_names BeautifulSoup html) ∧
  (Forall (in_row (BeautifulSoup html)) pre →
   parse_names BeautifulSoup html = Raise AttributeError).
Proof.
  set (soup := BeautifulSoup html). intros Hsplit Hname Hdec Htr.
  assert (∀ names', parse_names_step soup names' cb = Raise AttributeError) as Hstep.
  { intros names'. unfold parse_names_step.
    assert (rx_checkbox_fullmatch (get_attr soup cb "name" EmptyString) = Some digits)
      as -> by by apply rx_checkbox_fullmatch_Some.
    by rewrite (int_decimal_token digits Hdec), Htr. }
  assert (raises (parse_names BeautifulSoup html)) as Hraises.
  { unfold parse_names. fold soup. rewrite Hsplit. apply parse_names_loop_raises.
    intros names'. rewrite Hstep. by eexists. }
  split; [done |]. split.
  - destruct Hraises as [err Herr]. intros [names Hnames]. congruence.
  - intros Hpre. unfold parse_names. fold soup.
    rewrite Hsplit, parse_names_loop_app, (parse_names_loop_in_row _ _ _ Hpre).
    cbn [mbind result_bind]. cbn [parse_names_loop]. by rewrite Hstep.
Qed.

End NameParser.

Lemma parse_names_mapping_witness :
  parse_names sample_html_parser
    "<table><tr><th><input type=checkbox name=outlet_check_all></th></tr><tr><td> Lamp </td><td><input type=checkbox name=outlet3></td></tr><tr><td>Fan</td><td><input type=checkbox name=outlet1></td></tr></table>"
  = Ok {[ 3 := "Lamp"; 1 := "Fan" ]}%string.
Proof.
  match goal with |- parse_names _ ?html = _ =>
    assert (Forall (in_row (sample_html_parser html))
              (checkboxes (sample_html_parser html))) as Hrows
  end.
  { replace (checkboxes _) with [[0; 0; 0; 0]; [0; 1; 1; 0]; [0; 2; 1; 0]]%nat
      by (vm_compute; reflexivity).
    repeat (apply List.Forall_cons); try apply List.Forall_nil; intros Hm;
      first [ destruct Hm as [d Hd]; vm_compute in Hd; discriminate Hd
            | do 2 eexists; split; vm_compute; reflexivity ]. }
  destruct (parse_names_mapping sample_html_parser _ Hrows) as (names & Hnames & -> & _).
  exact Hnames.
Defined.

(** On one page [parse_names] returns no mapping, because the checkbox has
    no row; on another the name it gives is not the trimmed text of the
    cell, because the cell holds two strings. *)
Lemma parse_names_not_as_claimed :
  ¬ returns (parse_names sample_html_parser "<input type=checkbox name=outlet1>") ∧
  ∃ names cell,
    parse_names sample_html_parser
      "<table><tr><td>Rack <b>A</b></td><td><input type=checkbox name=outlet1></td></tr></table>"
      = Ok names ∧
    node_at two_strings_soup [0; 0; 0]%nat = Some cell ∧
    names !! 1 = Some "RackA"%string ∧
    trimmed_text cell = "Rack A"%string.
Proof.
  split.
  - intros [names Hnames]. discriminate Hnames.
  - eexists _, _. repeat split; reflexivity.
Qed.

Lemma parse_names_no_row_witness :
  parse_names sample_html_parser "<input type=checkbox name=outlet1>"
  = Raise AttributeError.
Proof.
  exact (proj2 (proj2 (parse_names_no_row sample_html_parser
    "<input type=checkbox name=outlet1>" [] [] [0%nat] "1"
    eq_refl eq_refl eq_refl eq_refl)) (List.Forall_nil _)).
Defined.

Example resolve_by_number :
  resolve_outlet "2" [(1, "Lamp", "ON"); (2, "Server", "OFF")]%string = Ok 2.
Proof. reflexivity. Qed.

Example resolve_by_name :
  resolve_outlet "SERVER" [(1, "Lamp", "ON"); (2, "Server", "OFF")]%string = Ok 2.
Proof. reflexivity. Qed.

Example latin1_examples :
  PyStr.isdigit superscript_two = true ∧
  PyStr.isdigit EmptyString = false ∧
  PyStr.isdigit "1_0" = false ∧
  PyStr.int (String (PyStr.chr 160) "5") = Ok 5 ∧
  PyStr.int (String (PyStr.chr 28) "5")
    = Raise (ValueError (InvalidLiteralForInt (String (PyStr.chr 28) "5"))) ∧
  PyStr.strip (String (PyStr.chr 28) "a ") = "a"%string ∧
  PyStr.lower "Server" = "server"%string ∧
  PyStr.upper " on" = " ON"%string ∧
  rx_checkbox_fullmatch "outlet03" = Some "03"%string ∧
  rx_checkbox_fullmatch "outlet_check_all" = None ∧
  rx_checkbox_fullmatch "outlet" = None.
Proof. repeat split; reflexivity. Qed.

Example int_examples :
  PyStr.int "007" = Ok 7 ∧ PyStr.int "-3" = Ok (-3) ∧ PyStr.int "1_0" = Ok 10 ∧
  PyStr.int "1__0" = Raise (ValueError (InvalidLiteralForInt "1__0")) ∧
  PyStr.str (-12) = "-12"%string ∧ PyStr.str 0 = "0"%string ∧
  PyStr.remove_all "outletStat" "outletStat1outletStat2" = "12"%string ∧
  PyStr.strip "  a b  " = "a b"%string.
Proof. repeat split; reflexivity. Qed.

(** * Further properties of the code *)

(** ** The resolver and the directory *)

Section ResolverUse.
Import PyStr.

Lemma filter_number_subset (f : OutletRecord → bool) (table : list OutletRecord) n :
  n ∈ number <$> List.filter f table →
  ∃ r, r ∈ table ∧ f r = true ∧ number r = n.
Proof.
  intros (r & -> & Hr)%list_elem_of_fmap.
  apply elem_of_bool_filter in Hr as [Hr Hf]. by exists r.
Qed.

Lemma resolve_outlet_Ok (arg : string) (table : list OutletRecord) (n : Z) :
  resolve_outlet arg table = Ok n →
  ∃ r, r ∈ table ∧ number r = n ∧
       (if isdigit arg then int arg = Ok n else lower (name r) = lower arg).
Proof.
  unfold resolve_outlet. destruct (isdigit arg) eqn:Hdig.
  - destruct (int arg) as [num | e] eqn:Hint; [| done]. cbn [mbind result_bind].
    rewrite existsb_number. case_bool_decide as Hin; [| done].
    intros [= <-]. apply list_elem_of_fmap in Hin as (r & -> & Hr). by exists r.
  - destruct (number <$> List.filter (name_matches arg) table) as [| m [| m' ms]] eqn:Hm;
      [done | | done].
    intros [= <-].
    destruct (filter_number_subset (name_matches arg) table m) as (r & Hr & Hf & Hn).
    { rewrite Hm. left. }
    exists r. repeat split; [done .. |]. by apply name_matches_spec.
Qed.

(** X1.  A number that [resolve_outlet] returns is the number of a record
    of the directory: of one carrying the number the token denotes when the
    token passes [isdigit], of one whose name equals the token up to case
    otherwise. *)
Theorem resolve_outlet_sound (arg : string) (table : list OutletRecord) (n : Z) :
  resolve_outlet arg table = Ok n →
  ∃ r, r ∈ table ∧ number r = n ∧
       (if isdigit arg then int arg = Ok n else lower (name r) = lower arg).
Proof. apply resolve_outlet_Ok. Qed.

Lemma resolve_outlet_sound_witness :
  ∃ r, r ∈ [(1, "Lamp", "ON"); (2, "Server", "OFF")]%string ∧ number r = 2 ∧
       lower (name r) = lower "SERVER".
Proof.
  exact (resolve_outlet_sound "SERVER" [(1, "Lamp", "ON"); (2, "Server", "OFF")]%string
           2 eq_refl).
Defined.

Lemma is_digit_lower_char c : is_digit (lower_char c) = is_digit c.
Proof. by destruct c as [[] [] [] [] [] [] [] []]. Qed.

Lemma digit_lower_char c : is_digit c = true → lower_char c = c.
Proof. by destruct c as [[] [] [] [] [] [] [] []]. Qed.

Lemma isdigit_lower s : isdigit (lower s) = isdigit s.
Proof.
  assert (∀ t, all_chars is_digit (lower t) = all_chars is_digit t) as Hall.
  { induction t as [| c r IH]; [done |]. simpl. by rewrite is_digit_lower_char, IH. }
  destruct s as [| c r]; [done |]. apply (Hall (String c r)).
Qed.

Lemma digits_lower s : isdigit s = true → lower s = s.
Proof.
  destruct s as [| c r]; [done |]. unfold isdigit.
  generalize (String c r). clear c r.
  induction s as [| c r IH]; [done |]. simpl.
  rewrite andb_true_iff. intros [Hc Hr]. by rewrite (digit_lower_char c Hc), IH.
Qed.

(** X2.  The case of the token never decides which outlet is selected: two
    tokens equal up to case select the same outlet of a directory, or none. *)
Theorem resolve_outlet_case_insensitive (arg arg' : string)
    (table : list OutletRecord) (n : Z) :
  lower arg = lower arg' →
  resolve_outlet arg table = Ok n ↔ resolve_outlet arg' table = Ok n.
Proof.
  intros Hlow.
  assert (isdigit arg = isdigit arg') as Hdig
    by by rewrite <- (isdigit_lower arg), Hlow, isdigit_lower.
  destruct (isdigit arg) eqn:Ha.
  - assert (arg = arg') as ->; [| done].
    by rewrite <- (digits_lower arg Ha), Hlow, digits_lower.
  - rewrite !resolve_outlet_by_name by done.
    assert (List.filter (name_matches arg) table = List.filter (name_matches arg') table)
      as ->.
    { apply filter_ext. intros r. unfold name_matches. by rewrite Hlow. }
    by destruct (number <$> List.filter (name_matches arg') table) as [| ? [| ? ?]].
Qed.

Lemma resolve_outlet_case_insensitive_witness :
  resolve_outlet "server" [(1, "Lamp", "ON"); (2, "Server", "OFF")]%string = Ok 2.
Proof.
  apply (resolve_outlet_case_insensitive "SERVER" "server"
           [(1, "Lamp", "ON"); (2, "Server", "OFF")]%string 2 eq_refl).
  reflexivity.
Defined.

Lemma str_decimal_token z : 0 ≤ z → decimal_token (str z) = true.
Proof.
  destruct z as [| p | p]; [done | | lia]. intros _.
  unfold str. cbn [Z.to_int NilZero.string_of_int].
  pose proof (Unsigned.to_uint_nonnil p) as Hnil.
  assert (NilZero.string_of_uint (Pos.to_uint p)
          = NilEmpty.string_of_uint (Pos.to_uint p)) as ->
    by by destruct (Pos.to_uint p).
  unfold decimal_token. by rewrite string_of_uint_nonempty, string_of_uint_decimal.
Qed.

(** X3.  Every record with a number that is not negative is found through
    the decimal numeral of its number, whatever the names in the directory. *)
Theorem resolve_outlet_by_numeral (r : OutletRecord) (table : list OutletRecord) :
  r ∈ table → 0 ≤ number r →
  resolve_outlet (str (number r)) table = Ok (number r).
Proof.
  intros Hr Hpos. unfold resolve_outlet.
  rewrite (decimal_token_isdigit _ (str_decimal_token _ Hpos)), int_str.
  cbn [mbind result_bind]. rewrite existsb_number.
  rewrite bool_decide_eq_true_2; [done |]. apply list_elem_of_fmap. by exists r.
Qed.

Lemma resolve_outlet_by_numeral_witness :
  resolve_outlet "12" [(12, "7", "ON"); (7, "12", "OFF")]%string = Ok 12.
Proof.
  apply (resolve_outlet_by_numeral (12, "7", "ON")%string
           [(12, "7", "ON"); (7, "12", "OFF")]%string); [left | done].
Defined.

Lemma filter_unique_image {A B} `{EqDecision B} (f : A → B) (l : list A) x :
  NoDup (f <$> l) → x ∈ l →
  List.filter (λ y, bool_decide (f y = f x)) l = [x].
Proof.
  induction l as [| y l IH]; intros Hnd Hx; [by apply elem_of_nil in Hx |].
  rewrite fmap_cons in Hnd. apply NoDup_cons in Hnd as [Hy Hnd]. simpl.
  apply elem_of_cons in Hx as [-> | Hx].
  - rewrite bool_decide_eq_true_2 by done. f_equal.
    clear IH Hnd. induction l as [| z l IH]; [done |]. simpl.
    rewrite fmap_cons in Hy. apply not_elem_of_cons in Hy as [Hz Hl].
    rewrite bool_decide_eq_false_2 by done. by apply IH.
  - rewrite bool_decide_eq_false_2; [by apply IH |].
    intros Heq. apply Hy. rewrite Heq. apply list_elem_of_fmap. by exists x.
Qed.

(** X4.  In a directory whose names differ pairwise even when case is
    ignored, every record whose name does not pass [isdigit] is found
    through its name. *)
Theorem resolve_outlet_by_unique_name (r : OutletRecord) (table : list OutletRecord) :
  r ∈ table →
  NoDup ((λ r', lower (name r')) <$> table) →
  isdigit (name r) = false →
  resolve_outlet (name r) table = Ok (number r).
Proof.
  intros Hr Hnd Hdig. rewrite resolve_outlet_by_name by done.
  unfold name_matches.
  by rewrite (filter_unique_image (λ r', lower (name r')) table r Hnd Hr).
Qed.

Lemma resolve_outlet_by_unique_name_witness :
  resolve_outlet "Server" [(1, "Lamp", "ON"); (2, "Server", "OFF")]%string = Ok 2.
Proof.
  apply (resolve_outlet_by_unique_name (2, "Server", "OFF")%string
           [(1, "Lamp", "ON"); (2, "Server", "OFF")]%string).
  - right. left.
  - repeat (apply NoDup_cons_2; [vm_compute; intros H; inversion H; subst;
      repeat match goal with H' : _ ∈ _ |- _ => inversion H'; subst; clear H' end |]).
    apply NoDup_nil_2.
  - reflexivity.
Defined.

End ResolverUse.

(** ** When the scrapers return *)

Section Scrapers.
Import PyStr.
Variable http_get : string → Auth → Z → result string.
Variable BeautifulSoup : string → Node.
Variable ET_fromstring : string → option Element.

Lemma parse_names_step_returns soup names cb names' :
  parse_names_step soup names cb = Ok names' → in_row soup cb.
Proof.
  unfold parse_names_step, in_row.
  destruct (rx_checkbox_fullmatch (get_attr soup cb "name" EmptyString)) as [digits |];
    [| intros _ Hs; by apply is_Some_None in Hs].
  destruct (int digits) as [num | e]; cbn [mbind result_bind]; [| done].
  destruct (find_parent soup cb "tr") as [tr |]; [| done].
  destruct (find_all soup tr "td" []) as [| td tds] eqn:Htd; [done |].
  intros _ _. exists tr, td. by rewrite Htd.
Qed.

Lemma parse_names_loop_returns soup cbs names names' :
  parse_names_loop soup cbs names = Ok names' → Forall (in_row soup) cbs.
Proof.
  revert names. induction cbs as [| cb cbs IH]; intros names; [by constructor |].
  cbn [parse_names_loop].
  destruct (parse_names_step soup names cb) as [names1 |] eqn:Hstep; [| done].
  cbn [mbind result_bind]. intros Hloop. constructor.
  - by eapply parse_names_step_returns.
  - by eapply IH.
Qed.

(** X5.  [parse_names] returns a mapping exactly when every checkbox of the
    page whose name is outlet and a number has a nearest enclosing tr and
    that tr has a td inside; on every other page it raises. *)
Theorem parse_names_returns_iff (html : string) :
  returns (parse_names BeautifulSoup html) ↔
  Forall (in_row (BeautifulSoup html)) (checkboxes (BeautifulSoup html)).
Proof.
  unfold parse_names. split.
  - intros [names Hnames]. by eapply parse_names_loop_returns.
  - intros Hrows. rewrite (parse_names_loop_in_row _ _ _ Hrows). by eexists.
Qed.

Lemma parse_names_Ok (html : string) (names : gmap Z string) :
  parse_names BeautifulSoup html = Ok names →
  names = assign_all (omap (names_entry (BeautifulSoup html))
                        (checkboxes (BeautifulSoup html))) ∅.
Proof.
  unfold parse_names. intros Hnames.
  pose proof (parse_names_loop_returns _ _ _ _ Hnames) as Hrows.
  rewrite (parse_names_loop_in_row _ _ _ Hrows) in Hnames. congruence.
Qed.

Lemma parse_names_key_nonneg (html : string) (names : gmap Z string) (n : Z) :
  parse_names BeautifulSoup html = Ok names → is_Some (names !! n) → 0 ≤ n.
Proof.
  intros -> %parse_names_Ok [v Hv].
  apply assign_all_lookup in Hv as [Hin | Hempty]; [| by rewrite lookup_empty in Hempty].
  apply list_elem_of_omap in Hin as (cb & _ & Hentry).
  apply names_entry_Some in Hentry as (digits & _ & _ & _ & Hrx & -> & _).
  apply rx_checkbox_fullmatch_Some in Hrx as [_ Hdec].
  unfold decimal_token in Hdec. apply andb_true_iff in Hdec as [_ Hall].
  by apply decimal_value_from_nonneg.
Qed.

(** X6.  No key of a mapping that [parse_names] returns is negative. *)
Theorem parse_names_keys_nonneg (html : string) (names : gmap Z string) (n : Z) :
  parse_names BeautifulSoup html = Ok names → is_Some (names !! n) → 0 ≤ n.
Proof. apply parse_names_key_nonneg. Qed.

(** X7.  A checkbox named outlet and a number whose nearest enclosing tr
    holds no td makes [parse_names] fail; when the checkboxes before it lie
    in rows the failure is the [IndexError] of taking the first of no
    cells. *)
Theorem parse_names_no_cell (html : string) (pre post : list path) (cb tr : path)
    (digits : string) :
  checkboxes (BeautifulSoup html) = pre ++ cb :: post →
  get_attr (BeautifulSoup html) cb "name" EmptyString = ("outlet" +:+ digits)%string →
  decimal_token digits = true →
  find_parent (BeautifulSoup html) cb "tr" = Some tr →
  find_all (BeautifulSoup html) tr "td" [] = [] →
  ¬ returns (parse_names BeautifulSoup html) ∧
  (Forall (in_row (BeautifulSoup html)) pre →
   parse_names BeautifulSoup html = Raise IndexError).
Proof.
  set (soup := BeautifulSoup html). intros Hsplit Hname Hdec Htr Htd.
  assert (∀ names', parse_names_step soup names' cb = Raise IndexError) as Hstep.
  { intros names'. unfold parse_names_step.
    assert (rx_checkbox_fullmatch (get_attr soup cb "name" EmptyString) = Some digits)
      as -> by by apply rx_checkbox_fullmatch_Some.
    by rewrite (int_decimal_token digits Hdec), Htr, Htd. }
  split.
  - intros [names Hnames]. unfold parse_names in Hnames. fold soup in Hnames.
    rewrite Hsplit, parse_names_loop_app in Hnames.
    destruct (parse_names_loop soup pre ∅) as [names1 |]; [| done].
    cbn [mbind result_bind parse_names_loop] in Hnames. by rewrite Hstep in Hnames.
  - intros Hpre. unfold parse_names. fold soup.
    rewrite Hsplit, parse_names_loop_app, (parse_names_loop_in_row _ _ _ Hpre).
    cbn [mbind result_bind parse_names_loop]. by rewrite Hstep.
Qed.

Lemma parse_status_step_returns states e states' :
  parse_status_step states e = Ok states' → accepted_status e.
Proof.
  unfold parse_status_step, accepted_status.
  destruct (startswith "outletStat" (elem_tag e)); [| done].
  destruct (int (remove_all "outletStat" (elem_tag e))) as [num | err];
    cbn [mbind result_bind]; [| done].
  destruct (elem_text e) as [t |]; [| done].
  intros _ _. split; by eexists.
Qed.

Lemma parse_status_step_accepted states e :
  accepted_status e → returns (parse_status_step states e).
Proof.
  unfold parse_status_step, accepted_status.
  destruct (startswith "outletStat" (elem_tag e)); [| by eexists].
  intros [[num ->] [t ->]]; [done |]. by eexists.
Qed.

Lemma parse_status_loop_returns_iff elems states :
  returns (parse_status_loop elems states) ↔ Forall accepted_status elems.
Proof.
  revert states. induction elems as [| e elems IH]; intros states.
  - split; [by constructor | by eexists].
  - cbn [parse_status_loop]. split.
    + intros [states' Hloop].
      destruct (parse_status_step states e) as [states1 |] eqn:Hstep; [| done].
      cbn [mbind result_bind] in Hloop. constructor.
      * by eapply parse_status_step_returns.
      * apply (IH states1). by eexists.
    + intros [He Helems]%Forall_cons.
      destruct (parse_status_step_accepted states e He) as [states1 ->].
      cbn [mbind result_bind]. by apply IH.
Qed.

(** X8.  [parse_status] returns a mapping exactly when the text is
    well-formed XML and every top-level element whose tag begins with the
    prefix has a text and a tag that is an integer literal once every
    occurrence of the prefix is removed; on every other text it raises. *)
Theorem parse_status_returns_iff (xml_text : string) :
  returns (parse_status ET_fromstring xml_text) ↔
  ∃ root, ET_fromstring xml_text = Some root ∧
          Forall accepted_status (elem_children root).
Proof.
  unfold parse_status. destruct (ET_fromstring xml_text) as [root |].
  - rewrite parse_status_loop_returns_iff. split; [by exists root |].
    by intros (root' & [= <-] & Hroot).
  - split; [by intros [? ?] | by intros (? & ? & _)].
Qed.

Lemma list_outlets_Ok base_url auth timeout (rows : list OutletRecord) :
  list_outlets http_get BeautifulSoup ET_fromstring base_url auth timeout = Ok rows →
  ∃ html xml_text names stats,
    fetch http_get base_url "control_outlet.htm" auth timeout = Ok html ∧
    parse_names BeautifulSoup html = Ok names ∧
    fetch http_get base_url "status.xml" auth timeout = Ok xml_text ∧
    parse_status ET_fromstring xml_text = Ok stats ∧
    rows = row_of names stats <$> sorted_keys names.
Proof.
  unfold list_outlets.
  destruct (fetch http_get base_url "control_outlet.htm" auth timeout) as [html |] eqn:H1;
    cbn [mbind result_bind]; [| done].
  destruct (parse_names BeautifulSoup html) as [names |] eqn:H2;
    cbn [mbind result_bind]; [| done].
  destruct (fetch http_get base_url "status.xml" auth timeout) as [xml_text |] eqn:H3;
    cbn [mbind result_bind]; [| done].
  destruct (parse_status ET_fromstring xml_text) as [stats |] eqn:H4;
    cbn [mbind result_bind]; [| done].
  rewrite directory_rows. intros Hrows.
  exists html, xml_text, names, stats. split_and!; [done .. |]. congruence.
Qed.

Lemma list_outlets_number_nonneg base_url auth timeout (rows : list OutletRecord) r :
  list_outlets http_get BeautifulSoup ET_fromstring base_url auth timeout = Ok rows →
  r ∈ rows → 0 ≤ number r.
Proof.
  intros (html & xml_text & names & stats & _ & Hnames & _ & _ & ->)%list_outlets_Ok.
  intros (n & -> & Hn)%list_elem_of_fmap. apply sorted_keys_elem_of in Hn.
  by apply (parse_names_key_nonneg html names).
Qed.

(** X9.  Every record of a directory that [list_outlets] returns is found
    in that directory through the decimal numeral of its number. *)
Theorem list_outlets_resolve_by_numeral base_url auth timeout
    (rows : list OutletRecord) (r : OutletRecord) :
  list_outlets http_get BeautifulSoup ET_fromstring base_url auth timeout = Ok rows →
  r ∈ rows →
  0 ≤ number r ∧ resolve_outlet (str (number r)) rows = Ok (number r).
Proof.
  intros Hrows Hr.
  pose proof (list_outlets_number_nonneg _ _ _ _ _ Hrows Hr) as Hpos.
  split; [done |]. unfold resolve_outlet.
  rewrite (decimal_token_isdigit _ (str_decimal_token _ Hpos)), int_str.
  cbn [mbind result_bind]. rewrite existsb_number.
  rewrite bool_decide_eq_true_2; [done |]. apply list_elem_of_fmap. by exists r.
Qed.

End Scrapers.

Lemma parse_names_keys_nonneg_witness : 0 ≤ 3.
Proof.
  apply (parse_names_keys_nonneg sample_html_parser
    "<table><tr><th><input type=checkbox name=outlet_check_all></th></tr><tr><td> Lamp </td><td><input type=checkbox name=outlet3></td></tr><tr><td>Fan</td><td><input type=checkbox name=outlet1></td></tr></table>"
    {[ 3 := "Lamp"; 1 := "Fan" ]}%string 3 eq_refl).
  by exists "Lamp"%string.
Defined.

Lemma parse_names_no_cell_witness :
  parse_names th_row_parser
    "<table><tr><th>Lamp</th><th><input type=checkbox name=outlet3></th></tr></table>"
  = Raise IndexError.
Proof.
  exact (proj2 (parse_names_no_cell th_row_parser
    "<table><tr><th>Lamp</th><th><input type=checkbox name=outlet3></th></tr></table>"
    [] [] [0; 0; 1; 0]%nat [0; 0]%nat "3" eq_refl eq_refl eq_refl eq_refl eq_refl)
    (List.Forall_nil _)).
Defined.

Lemma list_outlets_resolve_by_numeral_witness :
  resolve_outlet "3" [(1, "Fan", "(unknown)"); (3, "Lamp", "ON")]%string = Ok 3.
Proof.
  refine (proj2 (list_outlets_resolve_by_numeral sample_http_get sample_html_parser
    sample_fromstring "http://pdu" ("admin", "secret")%string 5
    [(1, "Fan", "(unknown)"); (3, "Lamp", "ON")]%string (3, "Lamp", "ON")%string
    eq_refl _)).
  right. left.
Defined.

(** ** Trimming *)

Section Trimming.
Import PyStr.
Variable p : ascii → bool.

Lemma append_cons c s t : String c s +:+ t = String c (s +:+ t).
Proof. reflexivity. Qed.

Lemma lstrip_by_head_kept s : head_kept p (lstrip_by p s).
Proof.
  induction s as [| c r IH]; [done |]. simpl. by destruct (p c) eqn:Hc.
Qed.

Lemma head_kept_lstrip_by s : head_kept p s → lstrip_by p s = s.
Proof. destruct s as [| c r]; [done |]. simpl. by intros ->. Qed.

Lemma rstrip_by_head_kept s : head_kept p s → head_kept p (rstrip_by p s).
Proof.
  destruct s as [| c r]; [done |]. simpl. intros Hc.
  destruct (rstrip_by p r); [by rewrite Hc | done].
Qed.

Lemma rstrip_by_cons c r :
  rstrip_by p (String c r) =
    match rstrip_by p r with
    | EmptyString => if p c then EmptyString else String c EmptyString
    | r' => String c r'
    end.
Proof. reflexivity. Qed.

Lemma rstrip_by_idemp s : rstrip_by p (rstrip_by p s) = rstrip_by p s.
Proof.
  induction s as [| c r IH]; [done |]. rewrite rstrip_by_cons.
  destruct (rstrip_by p r) as [| d r'] eqn:Hr.
  - destruct (p c) eqn:Hc; [done |]. rewrite rstrip_by_cons. by rewrite Hc.
  - by rewrite rstrip_by_cons, IH.
Qed.

Lemma strip_by_idemp s : strip_by p (strip_by p s) = strip_by p s.
Proof.
  unfold strip_by.
  rewrite (head_kept_lstrip_by (rstrip_by p (lstrip_by p s))).
  - apply rstrip_by_idemp.
  - apply rstrip_by_head_kept, lstrip_by_head_kept.
Qed.

Lemma rstrip_by_app a b :
  nonempty (rstrip_by p b) = true → rstrip_by p (a +:+ b) = a +:+ rstrip_by p b.
Proof.
  intros Hb. induction a as [| c a IH]; [done |].
  rewrite !append_cons, !rstrip_by_cons, IH.
  destruct a as [| d a']; [| done].
  change (EmptyString +:+ rstrip_by p b) with (rstrip_by p b).
  by destruct (rstrip_by p b).
Qed.

Lemma tight_strip_by s : tight p (strip_by p s).
Proof.
  split.
  - apply rstrip_by_head_kept, lstrip_by_head_kept.
  - apply rstrip_by_idemp.
Qed.

Lemma tight_fixed s : tight p s → strip_by p s = s.
Proof. intros [Hh Hr]. unfold strip_by. by rewrite head_kept_lstrip_by. Qed.

Lemma tight_app a b :
  tight p a → nonempty a = true → tight p b → nonempty b = true → tight p (a +:+ b).
Proof.
  intros [Ha _] Hna [_ Hb] Hnb. split.
  - destruct a as [| c a']; [done |]. by rewrite append_cons.
  - rewrite rstrip_by_app; by rewrite Hb.
Qed.

Lemma tight_concat (l : list string) :
  Forall (λ x, tight p x ∧ nonempty x = true) l → tight p (concat_strings l).
Proof.
  induction 1 as [| x l [Hx Hnx] Hl IH]; [done |].
  change (concat_strings (x :: l)) with (x +:+ concat_strings l).
  destruct l as [| y l'].
  - change (concat_strings []) with EmptyString. by rewrite append_empty_r.
  - apply tight_app; [done .. |].
    apply Forall_cons in Hl as [[_ Hny] _].
    change (concat_strings (y :: l')) with (y +:+ concat_strings l').
    destruct y; [done |]. by rewrite append_cons.
Qed.

(** White space or slashes around the host make no difference to what is
    left after stripping. *)
Lemma lstrip_by_all s : all_chars p s = true → lstrip_by p s = EmptyString.
Proof.
  induction s as [| c r IH]; [done |]. simpl. rewrite andb_true_iff.
  intros [-> Hr]. by apply IH.
Qed.

Lemma rstrip_by_all s : all_chars p s = true → rstrip_by p s = EmptyString.
Proof.
  induction s as [| c r IH]; [done |]. simpl. rewrite andb_true_iff.
  intros [-> Hr]. by rewrite IH.
Qed.

Lemma lstrip_by_run a s :
  all_chars p a = true → lstrip_by p (a +:+ s) = lstrip_by p s.
Proof.
  induction a as [| c a IH]; [done |]. intros Hall.
  cbn [all_chars] in Hall. apply andb_true_iff in Hall as [Hc Ha].
  rewrite append_cons. cbn [lstrip_by]. rewrite Hc. by apply IH.
Qed.

Lemma rstrip_by_run s b :
  all_chars p b = true → rstrip_by p (s +:+ b) = rstrip_by p s.
Proof.
  intros Hb. induction s as [| c s IH].
  - change (EmptyString +:+ b) with b. by rewrite rstrip_by_all.
  - by rewrite append_cons, !rstrip_by_cons, IH.
Qed.

Lemma strip_by_runs a s b :
  all_chars p a = true → all_chars p b = true →
  strip_by p (a +:+ s +:+ b) = strip_by p s.
Proof.
  intros Ha Hb. unfold strip_by. rewrite (lstrip_by_run a _ Ha).
  induction s as [| c s IH].
  - change (EmptyString +:+ b) with b. by rewrite lstrip_by_all.
  - rewrite append_cons. cbn [lstrip_by]. destruct (p c) eqn:Hc; [done |].
    rewrite <- append_cons. by apply rstrip_by_run.
Qed.

End Trimming.

Section Names.
Import PyStr.
Variable BeautifulSoup : string → Node.

Lemma get_text_strip_tight n : tight is_space (get_text_strip n).
Proof.
  unfold get_text_strip. apply tight_concat.
  apply Forall_forall. intros x [Hx Hnx]%elem_of_bool_filter. split; [| done].
  apply list_elem_of_fmap in Hx as (s & -> & _). apply (tight_strip_by is_space).
Qed.

(** X10.  No name in a mapping that [parse_names] returns begins or ends
    with white space: stripping a name leaves it as it is. *)
Theorem parse_names_values_trimmed (html : string) (names : gmap Z string)
    (n : Z) (v : string) :
  parse_names BeautifulSoup html = Ok names → names !! n = Some v → trimmed v.
Proof.
  intros -> %parse_names_Ok Hv.
  apply assign_all_lookup in Hv as [Hin | Hempty]; [| by rewrite lookup_empty in Hempty].
  apply list_elem_of_omap in Hin as (cb & _ & Hentry).
  apply names_entry_Some in Hentry as (digits & tr & td & cell & _ & _ & _ & _ & _ & ->).
  apply (tight_fixed is_space), get_text_strip_tight.
Qed.

End Names.

Lemma parse_names_values_trimmed_witness : trimmed "Lamp".
Proof.
  apply (parse_names_values_trimmed sample_html_parser
    "<table><tr><th><input type=checkbox name=outlet_check_all></th></tr><tr><td> Lamp </td><td><input type=checkbox name=outlet3></td></tr><tr><td>Fan</td><td><input type=checkbox name=outlet1></td></tr></table>"
    {[ 3 := "Lamp"; 1 := "Fan" ]}%string 3 "Lamp" eq_refl).
  vm_compute. reflexivity.
Defined.

(** ** The query of a command *)

Section Query.
Import PyStr.

Lemma take_until_app (q : ascii → bool) s c r :
  all_chars (λ d, negb (q d)) s = true → q c = true →
  take_until q (s +:+ String c r) = s.
Proof.
  intros Hs Hc. induction s as [| d s IH].
  - change (EmptyString +:+ String c r) with (String c r). simpl. by rewrite Hc.
  - cbn [all_chars] in Hs. apply andb_true_iff in Hs as [Hd Hs].
    rewrite append_cons. cbn [take_until].
    apply negb_true_iff in Hd. rewrite Hd. by rewrite IH.
Qed.

Lemma int_char_not_equals c : is_int_char c = true → negb (is_code 61 c) = true.
Proof. by destruct c as [[] [] [] [] [] [] [] []]. Qed.

Lemma append_cancel_l s a b : s +:+ a = s +:+ b → a = b.
Proof.
  induction s as [| c s IH]; [done |]. rewrite !append_cons. intros [= H]. by apply IH.
Qed.

Lemma query_outlet_set_outlet_query (outlet : Z) (op : OutletOperation) :
  query_outlet (set_outlet_query outlet op) = Ok outlet.
Proof.
  unfold query_outlet, set_outlet_query.
  change (drop_chars 6 ("outlet" +:+ ?x)) with x.
  change ("=1&op=" +:+ ?x) with (String "=" ("1&op=" +:+ x)).
  rewrite take_until_app; [apply int_str | | done].
  generalize (int_chars _ _ (int_str outlet)).
  apply all_chars_impl, int_char_not_equals.
Qed.

(** X11.  The query of a command names its outlet and its operation without
    loss: two commands with the same query have the same outlet and the
    same operation. *)
Theorem set_outlet_query_inj (outlet outlet' : Z) (op op' : OutletOperation) :
  set_outlet_query outlet op = set_outlet_query outlet' op' →
  outlet = outlet' ∧ op = op'.
Proof.
  intros Hq.
  assert (outlet = outlet') as <-.
  { pose proof (query_outlet_set_outlet_query outlet op) as H.
    rewrite Hq, query_outlet_set_outlet_query in H. congruence. }
  split; [done |]. unfold set_outlet_query in Hq.
  do 3 apply append_cancel_l in Hq. by destruct op, op'.
Qed.

Lemma set_outlet_query_inj_witness : 7 = 7 ∧ OFF = OFF.
Proof. exact (set_outlet_query_inj 7 7 OFF OFF eq_refl). Defined.

End Query.

(** ** The command line *)

Section CliUse.
Import PyStr.
Variable http_get : string → Auth → Z → result string.
Variable BeautifulSoup : string → Node.
Variable ET_fromstring : string → option Element.

Lemma next_name_Some (n : Z) (table : list OutletRecord) :
  n ∈ number <$> table →
  ∃ r, r ∈ table ∧ number r = n ∧ next_name n table = Some (name r).
Proof.
  unfold next_name. induction table as [| r table IH]; [by intros ?%elem_of_nil |].
  rewrite fmap_cons. simpl. destruct (Z.eqb_spec (number r) n) as [Hn | Hn].
  - intros _. exists r. split; [left | done].
  - intros [? | Hin]%elem_of_cons; [done |].
    destruct (IH Hin) as (r' & Hr' & Hn' & Hnext). exists r'. split; [by right | done].
Qed.

(** X12.  [main] never ends in the [StopIteration] of looking up the name
    of the resolved outlet: a number that [resolve_outlet] returns always
    has a record in the directory it was resolved in. *)
Theorem main_no_stop_iteration
    (browser_apply : string → Auth → Z → result unit) (args : Namespace) :
  main http_get BeautifulSoup ET_fromstring browser_apply args ≠ UncaughtStopIteration.
Proof.
  unfold main. destruct (arg_list args).
  - by destruct (list_outlets _ _ _ _ _ _).
  - destruct (arg_state args) as [st |]; [| done].
    destruct (list_outlets _ _ _ _ _ _) as [table |]; [| done].
    destruct (arg_outlet args) as [token |]; [| done].
    destruct (resolve_outlet token table) as [n | e] eqn:Hres; [| by destruct e].
    apply resolve_outlet_Ok in Hres as (r & Hr & Hn & _).
    destruct (next_name_Some n table) as (r' & _ & _ & ->).
    { apply list_elem_of_fmap. by exists r. }
    by destruct (set_outlet _ _ _ _ _ _).
Qed.

(** X13.  When [main] returns from a command on an outlet, it has printed
    one line, the directory was fetched, the token resolved to an outlet of
    it, and the browser session succeeded on the control URL whose code is
    0 when [-s] is 1 and 1 otherwise; the line names that outlet and says
    ON when [-s] is 1 and OFF otherwise. *)
Theorem main_command_returned
    (browser_apply : string → Auth → Z → result unit) (args : Namespace)
    (printed : list string) :
  arg_list args = false →
  main http_get BeautifulSoup ET_fromstring browser_apply args = Returned printed →
  ∃ st token table r,
    arg_state args = Some st ∧ arg_outlet args = Some token ∧
    list_outlets http_get BeautifulSoup ET_fromstring
      ("http://" +:+ strip_by is_slash (arg_host args))
      (arg_user args, arg_password args) (arg_timeout args) = Ok table ∧
    resolve_outlet token table = Ok (number r) ∧ r ∈ table ∧
    browser_apply
      (("http://" +:+ strip_by is_slash (arg_host args)) +:+ "/control_outlet.htm?" +:+
       "outlet" +:+ str (number r) +:+ "=1&op=" +:+
       (if decide (st = "1"%string) then "0" else "1") +:+ "&submit=Apply")
      (arg_user args, arg_password args) (arg_timeout args * 1000) = Ok tt ∧
    printed =
      ["Outlet " +:+ str (number r) +:+ " (" +:+ name r +:+ ") set to " +:+
       (if decide (st = "1"%string) then "ON" else "OFF") +:+ "."].
Proof.
  intros Hlist. unfold main. rewrite Hlist.
  destruct (arg_state args) as [st |]; [| done].
  destruct (list_outlets _ _ _ _ _ _) as [table |]; [| done].
  destruct (arg_outlet args) as [token |]; [| done].
  destruct (resolve_outlet token table) as [n | e] eqn:Hres; [| by destruct e].
  pose proof Hres as Hres'. apply resolve_outlet_Ok in Hres' as (r0 & Hr0 & Hn0 & _).
  destruct (next_name_Some n table) as (r & Hr & Hn & ->).
  { apply list_elem_of_fmap. by exists r0. }
  destruct (set_outlet browser_apply _ n _ _ _) as [[] |] eqn:Hset; [| done].
  intros [= <-]. exists st, token, table, r. rewrite Hn.
  split_and!; try done.
  - unfold set_outlet, set_outlet_query, operation_of_state in Hset.
    by destruct (decide (st = "1"%string)).
  - unfold confirmation_line, operation_of_state, operation_word.
    by destruct (decide (st = "1"%string)).
Qed.


(** X15.  Slashes written before or after the host make no difference:
    [main] behaves on a host with any run of slashes at either end as on
    the host without them. *)
Theorem main_host_slashes
    (browser_apply : string → Auth → Z → result unit) (args : Namespace)
    (h : string) (j k : nat) :
  main http_get BeautifulSoup ET_fromstring browser_apply
    (with_host (slashes j +:+ h +:+ slashes k) args)
  = main http_get BeautifulSoup ET_fromstring browser_apply (with_host h args).
Proof.
  assert (∀ i, all_chars is_slash (slashes i) = true) as Hrun
    by (induction i as [| i IH]; [done | exact IH]).
  unfold main, with_host. cbn [arg_host arg_user arg_password arg_timeout arg_list
    arg_outlet arg_state].
  by rewrite (strip_by_runs is_slash (slashes j) h (slashes k) (Hrun j) (Hrun k)).
Qed.

End CliUse.

Lemma main_command_returned_witness :
  main sample_http_get sample_html_parser sample_fromstring sample_browser sample_args
  = Returned ["Outlet 3 (Lamp) set to ON."%string].
Proof.
  destruct (main_command_returned sample_http_get sample_html_parser sample_fromstring
              sample_browser sample_args ["Outlet 3 (Lamp) set to ON."%string]
              eq_refl eq_refl) as (st & token & table & r & _).
  reflexivity.
Defined.


(** ** Ambiguous names in a fetched directory *)

Section Ambiguity.
Import PyStr.
Variable http_get : string → Auth → Z → result string.
Variable BeautifulSoup : string → Node.
Variable ET_fromstring : string → option Element.

Lemma int_Raise s e : int s = Raise e → e = ValueError (InvalidLiteralForInt s).
Proof.
  unfold int.
  destruct (rstrip_by is_int_space (lstrip_by is_int_space s)) as [| c r]; [congruence |].
  destruct (if is_code 45 c then Z.opp <$> int_digits 0 false r
            else if is_code 43 c then int_digits 0 false r
            else int_digits 0 false (String c r)); [done | congruence].
Qed.

Lemma filter_numbers_sorted (f : OutletRecord → bool) (table : list OutletRecord) :
  StronglySorted Z.lt (number <$> table) →
  StronglySorted Z.lt (number <$> List.filter f table).
Proof.
  induction table as [| r table IH]; [done |].
  rewrite fmap_cons. intros [Hsorted Hall]%StronglySorted_inv.
  simpl. destruct (f r); [| by apply IH].
  rewrite fmap_cons. constructor; [by apply IH |].
  rewrite Forall_forall in Hall |- *. intros m Hm. apply Hall.
  apply list_elem_of_fmap in Hm as (r' & -> & Hr').
  apply elem_of_bool_filter in Hr' as [Hr' _]. apply list_elem_of_fmap. by exists r'.
Qed.

(** X16.  When a name is ambiguous in a directory that [list_outlets]
    returned, the error names the token and lists two or more numbers, each
    once and in ascending order: the numbers of exactly the records whose
    name equals the token up to case. *)
Theorem list_outlets_ambiguous base_url auth timeout (rows : list OutletRecord)
    (arg a : string) (ms : list Z) :
  list_outlets http_get BeautifulSoup ET_fromstring base_url auth timeout = Ok rows →
  resolve_outlet arg rows = Raise (ValueError (MultipleOutletsNamed a ms)) →
  a = arg ∧ (2 ≤ length ms)%nat ∧ StronglySorted Z.lt ms ∧
  ∀ m, m ∈ ms ↔ ∃ r, r ∈ rows ∧ number r = m ∧ lower (name r) = lower arg.
Proof.
  intros Hrows Hres.
  assert (isdigit arg = false ∧ a = arg ∧
          ms = number <$> List.filter (name_matches arg) rows ∧ (2 ≤ length ms)%nat)
    as (Hdig & -> & -> & Hlen).
  { unfold resolve_outlet in Hres. destruct (isdigit arg).
    - destruct (int arg) as [num | e] eqn:Hint; cbn [mbind result_bind] in Hres.
      + by destruct (existsb _ rows).
      + apply int_Raise in Hint as ->. done.
    - destruct (number <$> List.filter (name_matches arg) rows) as [| m [| m' l]];
        [done .. |].
      injection Hres as <- <-. split_and!; [done .. |]. simpl. lia. }
  split; [done |]. split; [done |]. split.
  - apply filter_numbers_sorted.
    apply list_outlets_Ok in Hrows as (html & xml_text & names & stats & _ & _ & _ & _ & ->).
    rewrite number_row_of. apply sorted_keys_lt.
  - intros m. rewrite list_elem_of_fmap. split.
    + intros (r & -> & [Hr Hf]%elem_of_bool_filter). exists r.
      by apply name_matches_spec in Hf.
    + intros (r & Hr & <- & Hlow). exists r. split; [done |].
      apply elem_of_bool_filter. split; [done |]. by apply name_matches_spec.
Qed.

End Ambiguity.

Lemma list_outlets_ambiguous_witness :
  (2 ≤ length [2; 5])%nat ∧ StronglySorted Z.lt [2; 5].
Proof.
  destruct (list_outlets_ambiguous twin_http_get twin_parser sample_fromstring
              "http://pdu" ("admin", "secret")%string 5
              [(2, "PUMP", "(unknown)"); (5, "Pump", "(unknown)")]%string
              "pump" "pump" [2; 5] eq_refl eq_refl) as (_ & Hlen & Hsorted & _).
  by split.
Defined.

(** ** A row nested in a cell of another row *)

(** An outer tr with a td does not help: the checkbox is looked up in its
    nearest tr, which has header cells only, and [parse_names] raises. *)
Lemma parse_names_nested_row :
  find_parent nested_row_soup [0; 0; 0; 0; 0; 1; 0]%nat "tr" = Some [0; 0; 0; 0; 0]%nat ∧
  find_all nested_row_soup [0; 0; 0; 0; 0]%nat "td" [] = [] ∧
  find_all nested_row_soup [0; 0]%nat "td" [] = [[0; 0; 0]]%nat ∧
  parse_names (λ _, nested_row_soup)
    "<table><tr><td><table><tr><th>Lamp</th><th><input type=checkbox name=outlet3></th></tr></table></td></tr></table>"
  = Raise IndexError.
Proof. repeat split; reflexivity. Qed.
